(** * code-change-miner: the commit traversal of [vcs/traverse.py]

    A shallow embedding of [GitAnalyzer], [ASTMethodExtractor], [Method]
    and [RepoInfo], and the properties of the mining pipeline proved
    about it.

    Conventions of the embedding:
    - Python [str] values are [string]s of bytes; the texts handled are
      taken to be ASCII, so [.encode()] and [.decode()] are the identity.
    - [Method] objects live in a heap (a list indexed by reference), since
      [extend_path] mutates them in place and the matcher's dictionary is
      keyed by object identity ([Method] defines neither [__eq__] nor
      [__hash__]).
    - The collaborators [ast.parse], [changegraph.build_from_files] and
      [uuid.uuid4] are section variables; exceptions are values of
      [result].
    - The visitor recurses on the stack of the interpreter; whether the
      stack suffices for a tree is a parameter as well, and where it does
      not the visit raises [RecursionError].
    - File-system operations (temporary files, pickling) are taken to
      succeed. *)

From Stdlib Require Import ZArith Ascii String List Lia.
From stdpp Require Import base list strings pretty.

Local Open Scope string_scope.
Local Open Scope Z_scope.
Local Open Scope list_scope.

(** ** Exceptions *)

Inductive exn : Type :=
| IndexError
| AttributeError
| TypeError
| SyntaxError
| RecursionError
| OtherError (what : string).

Inductive result (A : Type) : Type :=
| Ret (a : A)
| Raise (e : exn).
Arguments Ret {A} a.
Arguments Raise {A} e.

Definition rbind {A B} (r : result A) (k : A → result B) : result B :=
  match r with
  | Ret a => k a
  | Raise e => Raise e
  end.

Notation "'try!' x ':=' r 'in' k" := (rbind r (λ x, k))
  (at level 10, x pattern, r at level 100, k at level 200, only parsing).

(** ** The Python primitives the module relies on *)

Module Py.

(** [str.isspace] on the ASCII range. *)
Definition isspace (c : ascii) : bool :=
  let n := nat_of_ascii c in
  ((9 <=? n)%nat && (n <=? 13)%nat) || ((28 <=? n)%nat && (n <=? 32)%nat).

Fixpoint lstrip (s : string) : string :=
  match s with
  | EmptyString => EmptyString
  | String c s' => if isspace c then lstrip s' else s
  end.

Definition rstrip (s : string) : string :=
  String.rev (lstrip (String.rev s)).

(** [s.strip()] *)
Definition strip (s : string) : string := rstrip (lstrip s).

(** [s.endswith(suffix)] *)
Definition endswith (s suffix : string) : bool :=
  let n := String.length s in
  let k := String.length suffix in
  (k <=? n)%nat && String.eqb (substring (n - k) k s) suffix.

(** A slice bound [i] of a sequence of length [len], as Python
    normalises it. *)
Definition clamp (len i : Z) : Z :=
  if i <? 0 then Z.max (i + len) 0 else Z.min i len.

(** [s[a:b]]; [None] is an omitted bound. *)
Definition str_slice (s : string) (a b : option Z) : string :=
  let len := Z.of_nat (String.length s) in
  let a' := from_option (clamp len) 0 a in
  let b' := from_option (clamp len) len b in
  substring (Z.to_nat a') (Z.to_nat (b' - a')) s.

(** [l[a:b]] *)
Definition list_slice {A} (l : list A) (a b : Z) : list A :=
  let len := Z.of_nat (length l) in
  let a' := clamp len a in
  let b' := clamp len b in
  take (Z.to_nat (b' - a')) (drop (Z.to_nat a') l).

(** [l[i]], with negative indices counted from the end. *)
Definition list_index {A} (l : list A) (i : Z) : result A :=
  let len := Z.of_nat (length l) in
  let j := if i <? 0 then i + len else i in
  if (0 <=? j) && (j <? len)
  then match l !! Z.to_nat j with
       | Some x => Ret x
       | None => Raise IndexError
       end
  else Raise IndexError.

Definition LF : ascii := ascii_of_nat 10.
Definition CR : ascii := ascii_of_nat 13.

Definition snoc (s : string) (c : ascii) : string := s +:+ String c "".

(** [ast._splitlines_no_ff]: the lines of [source] with their line
    ends, split at "\n", "\r" and "\r\n" only.  [next_line] is the line
    being accumulated. *)
Fixpoint _splitlines_no_ff_from (source next_line : string) : list string :=
  match source with
  | EmptyString =>
      match next_line with
      | EmptyString => []
      | _ => [next_line]
      end
  | String c rest =>
      if Ascii.eqb c CR then
        match rest with
        | String c' rest' =>
            if Ascii.eqb c' LF
            then snoc (snoc next_line c) LF :: _splitlines_no_ff_from rest' ""
            else snoc next_line c :: _splitlines_no_ff_from rest ""
        | EmptyString => snoc next_line c :: _splitlines_no_ff_from rest ""
        end
      else if Ascii.eqb c LF then
        snoc next_line c :: _splitlines_no_ff_from rest ""
      else _splitlines_no_ff_from rest (snoc next_line c)
  end.

Definition _splitlines_no_ff (source : string) : list string :=
  _splitlines_no_ff_from source "".

(** Truth value of an optional string: [None] and [""] are false. *)
Definition truthy (s : option string) : bool :=
  match s with
  | None | Some EmptyString => false
  | Some _ => true
  end.

End Py.

(** ** Syntax trees *)

#[local] Set Warnings "-register-all".

(** The position attributes of a node. *)
Record position : Type := mkPos {
  lineno : Z;
  col_offset : Z;
  end_lineno : option Z;
  end_col_offset : option Z
}.

(** The statements of a module, as far as [ASTMethodExtractor] tells them
    apart: [def], [class], and every other node, which [NodeVisitor]
    handles with [generic_visit].  [children] are the nodes below it. *)
Inductive stmt : Type :=
| FunctionDef (name : string) (pos : position) (body : list stmt)
| ClassDef (name : string) (pos : position) (body : list stmt)
| OtherNode (pos : position) (children : list stmt).

Definition node_pos (node : stmt) : position :=
  match node with
  | FunctionDef _ p _ | ClassDef _ p _ | OtherNode p _ => p
  end.

(** How deep the visitor goes into a node: the body of a [def] is not
    visited. *)
Fixpoint nesting (node : stmt) : nat :=
  match node with
  | FunctionDef _ _ _ => 1%nat
  | ClassDef _ _ body => S (foldr Nat.max 0%nat (map nesting body))
  | OtherNode _ children => S (foldr Nat.max 0%nat (map nesting children))
  end.

(** [ast.get_source_segment(source, node)], without padding.  A node
    without end position gives [None]; an index out of the lines raises
    [IndexError]. *)
Definition get_source_segment (source : string) (node : stmt)
  : result (option string) :=
  let p := node_pos node in
  match end_lineno p, end_col_offset p with
  | Some end_ln, Some end_col_offset =>
      let lineno := lineno p - 1 in
      let end_lineno := end_ln - 1 in
      let col_offset := col_offset p in
      let lines := Py._splitlines_no_ff source in
      if end_lineno =? lineno then
        try! line := Py.list_index lines lineno in
        Ret (Some (Py.str_slice line (Some col_offset) (Some end_col_offset)))
      else
        try! first_line := Py.list_index lines lineno in
        let first := Py.str_slice first_line (Some col_offset) None in
        try! last_line := Py.list_index lines end_lineno in
        let last := Py.str_slice last_line None (Some end_col_offset) in
        let lines := Py.list_slice lines (lineno + 1) end_lineno in
        Ret (Some (String.concat "" (first :: lines ++ [last])))
  | _, _ => Ret None
  end.

(** ** [class Method] *)

Record Method : Type := mkMethod {
  file_path : string;
  ast : stmt;
  src : string;
  name : string;
  full_name : string
}.

Definition Method_init (path name : string) (ast : stmt) (src : string) : Method :=
  {| file_path := path; ast := ast; src := Py.strip src;
     name := name; full_name := name |}.

Definition extend_path (prefix : string) (m : Method) : Method :=
  {| file_path := file_path m; ast := ast m; src := src m; name := name m;
     full_name := prefix +:+ "." +:+ full_name m |}.

(** [get_source]: any exception of [get_source_segment] is caught and
    turned into [None]. *)
Definition get_source (m : Method) : option string :=
  match get_source_segment (src m) (ast m) with
  | Ret r => r
  | Raise _ => None
  end.

(** Objects are referred to by their index in the heap. *)
Definition ref := nat.
Definition heap := list Method.

Global Instance Method_inhabited : Inhabited Method :=
  populate (Method_init "" "" (OtherNode (mkPos 0 0 None None) []) "").

(** ** [class ASTMethodExtractor]

    The visitor returns the references of the [Method] objects it found
    ([None] where [NodeVisitor.generic_visit] returns nothing) and the
    heap after the visit. *)

Module ASTMethodExtractor.
Section Visitor.
(** [self.file_path] and [self.src] *)
Variables (path source : string).

Definition visit_FunctionDef (node : stmt) (node_name : string) (h : heap)
  : list ref * heap :=
  ([length h], h ++ [Method_init path node_name node source]).

Section Loops.
Variable visit : stmt → heap → option (list ref) * heap.

(** [for st in body: result = self.visit(st); if result: methods += result] *)
Fixpoint visit_body (body : list stmt) (methods : list ref) (h : heap)
  : list ref * heap :=
  match body with
  | [] => (methods, h)
  | st :: body' =>
      let '(result, h') := visit st h in
      visit_body body'
        (match result with
         | Some (r :: rs) => methods ++ r :: rs
         | _ => methods
         end) h'
  end.

(** [generic_visit]: the children are visited, their results dropped. *)
Fixpoint generic_visit (children : list stmt) (h : heap) : heap :=
  match children with
  | [] => h
  | st :: children' => generic_visit children' (visit st h).2
  end.
End Loops.

(** [for method in methods: method.extend_path(prefix)] *)
Definition extend_all (prefix : string) (methods : list ref) (h : heap) : heap :=
  foldl (λ h m, alter (extend_path prefix) m h) h methods.

Fixpoint visit (node : stmt) (h : heap) : option (list ref) * heap :=
  match node with
  | FunctionDef node_name _ _ =>
      let '(methods, h') := visit_FunctionDef node node_name h in
      (Some methods, h')
  | ClassDef class_name _ body =>
      let '(methods, h') := visit_body visit body [] h in
      (Some methods, extend_all class_name methods h')
  | OtherNode _ children => (None, generic_visit visit children h)
  end.

Definition visit_ClassDef (class_name : string) (body : list stmt) (h : heap)
  : list ref * heap :=
  let '(methods, h') := visit_body visit body [] h in
  (methods, extend_all class_name methods h').

Definition visit_Module (body : list stmt) (h : heap) : list ref * heap :=
  visit_body visit body [] h.
End Visitor.
End ASTMethodExtractor.

(** ** The records of [GitAnalyzer] *)

(** [pydriller.domain.commit.ModificationType] *)
Inductive ModificationType : Type :=
| ADD | COPY | RENAME | DELETE | MODIFY | UNKNOWN.

Global Instance ModificationType_eq_dec : EqDecision ModificationType.
Proof. solve_decision. Defined.

(** What the mining collaborator yields. *)
Record pd_modification : Type := mkPdMod {
  change_type : ModificationType;
  source_code_before : option string;
  pd_old_path : option string;
  source_code : option string;
  pd_new_path : option string
}.

Record pd_commit : Type := mkPdCommit {
  pd_hash : string;
  pd_msg : string;
  parents : list string;
  pd_modifications : list pd_modification
}.

(** The dictionaries built by [_extract_commits]. *)
Record modification : Type := mkMod {
  m_type : ModificationType;
  old_src : option string;
  old_path : option string;
  new_src : option string;
  new_path : option string
}.

Record repository : Type := mkRepo {
  r_name : string;
  r_path : string;
  r_url : string
}.

Record commit : Type := mkCommit {
  c_num : nat;
  c_hash : string;
  c_msg : string;
  c_modifications : list modification;
  c_repo : repository
}.

(** [class RepoInfo] *)
Record RepoInfo : Type := mkRepoInfo {
  repo_name : string;
  repo_path : string;
  repo_url : string;
  commit_hash : string;
  old_method : ref;
  new_method : ref
}.

Inductive log_level : Type := INFO | WARNING | ERROR.

Record log_entry : Type := mkLog {
  level : log_level;
  message : string
}.

(** The external collaborators. *)
Class Collaborators : Type := {
  ChangeGraph : Type;
  (* [ast.parse(src, mode='exec')]: the body of the module, or an
     exception. *)
  ast_parse : string → result (list stmt);
  (* The stack of the interpreter does not suffice for the recursive
     visit of the module: [ASTMethodExtractor.visit] then raises
     [RecursionError]. *)
  visit_overflows : list stmt → bool;
  (* [changegraph.build_from_files] on the contents of the two files. *)
  build_from_files : string → string → RepoInfo → heap → result ChangeGraph;
  (* [uuid.uuid4().hex], by number of the call. *)
  uuid4 : nat → string;
  (* [settings.get('store_interval', 300)] *)
  STORE_INTERVAL : Z
}.

(** ** The state of a worker process and its monad *)

Section Worker.
Context `{Collaborators}.

(** One call of the graph builder: the texts of the two temporary files,
    the metadata, and what the builder answered. *)
Record builder_call : Type := mkCall {
  call_old_text : string;
  call_new_text : string;
  call_info : RepoInfo;
  call_result : result ChangeGraph
}.

(** The heap of the process and, oldest first, what it has done so far:
    log records, calls of [_extract_methods] (path and text), calls of the
    builder, pickle files written, identifiers drawn. *)
Record state : Type := mkState {
  objects : heap;
  logged : list log_entry;
  extractions : list (string * option string);
  builder_calls : list builder_call;
  stored : list (string * list ChangeGraph);
  uuid_calls : nat
}.

Definition initial : state := mkState [] [] [] [] [] 0.

(** A computation that may raise; the state reached is kept either way. *)
Definition M (A : Type) : Type := state → result A * state.

Definition mret {A} (a : A) : M A := λ st, (Ret a, st).

Definition mbind {A B} (m : M A) (k : A → M B) : M B :=
  λ st, match m st with
        | (Ret a, st') => k a st'
        | (Raise e, st') => (Raise e, st')
        end.

Definition raise {A} (e : exn) : M A := λ st, (Raise e, st).

Definition logger_log (lvl : log_level) (msg : string) : M unit :=
  λ st, (Ret (),
         mkState (objects st) (logged st ++ [mkLog lvl msg]) (extractions st)
                 (builder_calls st) (stored st) (uuid_calls st)).

Definition enter_extract_methods (path : string) (source : option string) : M unit :=
  λ st, (Ret (),
         mkState (objects st) (logged st) (extractions st ++ [(path, source)])
                 (builder_calls st) (stored st) (uuid_calls st)).

(** Run a visitor on the heap. *)
Definition on_heap {A} (f : heap → A * heap) : M A :=
  λ st, let '(a, h) := f (objects st) in
        (Ret a,
         mkState h (logged st) (extractions st) (builder_calls st) (stored st)
                 (uuid_calls st)).

Definition get_heap : M heap := λ st, (Ret (objects st), st).

Definition new_uuid : M string :=
  λ st, (Ret (uuid4 (uuid_calls st)),
         mkState (objects st) (logged st) (extractions st) (builder_calls st)
                 (stored st) (S (uuid_calls st))).

Definition pickle_dump (filename : string) (graphs : list ChangeGraph) : M unit :=
  λ st, (Ret (),
         mkState (objects st) (logged st) (extractions st) (builder_calls st)
                 (stored st ++ [(filename, graphs)]) (uuid_calls st)).

(** The builder is called; what it raises is returned as a value for the
    [try] statement around the call. *)
Definition call_builder (old_text new_text : string) (info : RepoInfo)
  : M (result ChangeGraph) :=
  λ st, let answer := build_from_files old_text new_text info (objects st) in
        (Ret answer,
         mkState (objects st) (logged st) (extractions st)
                 (builder_calls st ++ [mkCall old_text new_text info answer])
                 (stored st) (uuid_calls st)).

(** [for x in l: acc = body x acc] *)
Fixpoint for_each {A B} (body : A → B → M B) (l : list A) (acc : B) : M B :=
  match l with
  | [] => mret acc
  | x :: l' => mbind (body x acc) (for_each body l')
  end.
End Worker.

Notation "'let!' x ':=' m 'in' k" := (mbind m (λ x, k))
  (at level 10, x pattern, m at level 100, k at level 200, only parsing).

(** ** Python dictionaries, in insertion order *)

Definition dict (K V : Type) : Type := list (K * V).

(** [d[k] = v]: an existing key keeps its place and gets the new value. *)
Fixpoint dict_set {K V} `{EqDecision K} (d : dict K V) (k : K) (v : V) : dict K V :=
  match d with
  | [] => [(k, v)]
  | (k', v') :: d' =>
      if decide (k = k') then (k, v) :: d' else (k', v') :: dict_set d' k v
  end.

Fixpoint dict_get {K V} `{EqDecision K} (d : dict K V) (k : K) : option V :=
  match d with
  | [] => None
  | (k', v') :: d' => if decide (k = k') then Some v' else dict_get d' k
  end.

(** ** [class GitAnalyzer] *)

Module GitAnalyzer.

Definition quote : string := String (ascii_of_nat 34) "".

(** [s.replace('\n', '; ')] *)
Fixpoint replace_newlines (s : string) : string :=
  match s with
  | EmptyString => EmptyString
  | String c s' =>
      if Ascii.eqb c Py.LF then "; " +:+ replace_newlines s'
      else String c (replace_newlines s')
  end.

(** The commit records of one repository, from the history the mining
    collaborator yields for it. *)
Definition _extract_commits (repo : repository) (history : list pd_commit)
  : list commit :=
  foldl (λ commits c,
           match parents c with
           | [] => commits
           | _ :: _ =>
               commits ++
               [ mkCommit (length commits + 1) (pd_hash c) (pd_msg c)
                   (map (λ m, mkMod (change_type m)
                                (source_code_before m) (pd_old_path m)
                                (source_code m) (pd_new_path m))
                        (pd_modifications c))
                   repo ]
           end)
        [] history.

(** [_get_methods_mapping]; the attributes of a method are read from the
    heap [h]. *)
Definition _get_methods_mapping (h : heap) (old_methods new_methods : list ref)
  : dict ref ref :=
  foldl (λ old_method_to_new old_method,
           foldl (λ old_method_to_new new_method,
                    if String.eqb (full_name (h !!! old_method))
                                  (full_name (h !!! new_method))
                    then dict_set old_method_to_new old_method new_method
                    else old_method_to_new)
                 old_method_to_new new_methods)
        [] old_methods.

Section Tasks.
Context `{Collaborators}.

Definition _store_change_graphs (graphs : list ChangeGraph) : M unit :=
  let! filename := new_uuid in
  let! _ := logger_log INFO ("Storing graphs to " +:+ filename) in
  let! _ := pickle_dump (filename +:+ ".pickle") graphs in
  logger_log INFO ("Storing graphs to " +:+ filename +:+ " finished").

Definition _extract_methods (path : string) (source : option string)
  : M (list ref) :=
  let! _ := enter_extract_methods path source in
  match source with
  | Some text =>
      match ast_parse text with
      | Ret body =>
          (* the visit is outside the [try]: what it raises goes on; the
             objects made so far are then out of reach *)
          if visit_overflows body then raise RecursionError
          else on_heap (ASTMethodExtractor.visit_Module path text body)
      | Raise _ =>
          let! _ := logger_log INFO "Unable to compile src and extract methods" in
          mret []
      end
  | None =>
      (* [ast.parse(None)] raises [TypeError] *)
      let! _ := logger_log INFO "Unable to compile src and extract methods" in
      mret []
  end.

(** [method.get_source()] on the object [method] refers to. *)
Definition get_source_of (method : ref) : M (option string) :=
  let! h := get_heap in
  match get_source_segment (src (h !!! method)) (ast (h !!! method)) with
  | Ret segment => mret segment
  | Raise _ =>
      let! _ := logger_log INFO "Unable to extract source segment from <ast node>" in
      mret None
  end.

Definition build_failure_message (c : commit) (old : Method) : string :=
  "Unable to build a change graph for repo=" +:+ r_path (c_repo c)
  +:+ ", commit=#" +:+ c_hash c
  +:+ ", method=" +:+ full_name old
  +:+ ", line=" +:+ pretty (lineno (node_pos (ast old))).

(** The body of the loop over [old_method_to_new.items()]. *)
Definition process_pair (c : commit) (pair : ref * ref)
    (change_graphs : list ChangeGraph) : M (list ChangeGraph) :=
  let '(old_method, new_method) := pair in
  let! old_method_src := get_source_of old_method in
  let! new_method_src := get_source_of new_method in
  if negb (forallb Py.truthy [old_method_src; new_method_src])
     || bool_decide (old_method_src = new_method_src)
  then mret change_graphs
  else
    let repo_info :=
      mkRepoInfo (r_name (c_repo c)) (r_path (c_repo c)) (r_url (c_repo c))
                 (c_hash c) old_method new_method in
    let! built := call_builder (default "" old_method_src)
                               (default "" new_method_src) repo_info in
    match built with
    | Raise _ =>
        let! h := get_heap in
        let! _ := logger_log ERROR (build_failure_message c (h !!! old_method)) in
        mret change_graphs
    | Ret cg =>
        let change_graphs := change_graphs ++ [cg] in
        if STORE_INTERVAL <=? Z.of_nat (length change_graphs)
        then let! _ := _store_change_graphs change_graphs in mret []
        else mret change_graphs
    end.

(** The body of the loop over [commit['modifications']]. *)
Definition process_mod (c : commit) (modif : modification)
    (change_graphs : list ChangeGraph) : M (list ChangeGraph) :=
  if negb (bool_decide (m_type modif = MODIFY)) then mret change_graphs
  else
    match old_path modif, new_path modif with
    | Some old_p, Some new_p =>
        if negb (forallb id [Py.endswith old_p ".py"; Py.endswith new_p ".py"])
        then mret change_graphs
        else
          let! old_methods := _extract_methods old_p (old_src modif) in
          let! new_methods := _extract_methods new_p (new_src modif) in
          let! h := get_heap in
          let old_method_to_new :=
            _get_methods_mapping h old_methods new_methods in
          for_each (process_pair c) old_method_to_new change_graphs
    | _, _ =>
        (* [None.endswith] *)
        raise AttributeError
    end.

Definition _get_commit_change_graphs (c : commit) : M unit :=
  let commit_msg := replace_newlines (c_msg c) in
  let! _ := logger_log INFO
              ("Looking at commit #" +:+ c_hash c +:+ ", msg: "
               +:+ quote +:+ commit_msg +:+ quote) in
  let! change_graphs := for_each (process_mod c) (c_modifications c) [] in
  match change_graphs with
  | [] => mret ()
  | _ :: _ => _store_change_graphs change_graphs
  end.

(** A worker of the pool runs the tasks it is given one after the
    other; an exception of a task is sent back as its result and the
    worker goes on. *)
Fixpoint worker (tasks : list commit) (st : state) : state :=
  match tasks with
  | [] => st
  | c :: tasks' => worker tasks' (_get_commit_change_graphs c st).2
  end.

(** The contents of the files written since [st0], and the builder calls
    made since [st0]. *)
Definition artifacts_since (st0 st : state) : list (list ChangeGraph) :=
  (drop (length (stored st0)) (stored st)).*2.

Definition calls_since (st0 st : state) : list builder_call :=
  drop (length (builder_calls st0)) (builder_calls st).
End Tasks.

(** A repository directory, with what the collaborators report for it. *)
Record repo_dir : Type := mkRepoDir {
  dir_repo : repository;
  dir_history : list pd_commit
}.

Definition startswith (s prefix : string) : bool :=
  String.prefix prefix s.

(** [build_change_graphs]: for each repository, in turn, the tasks given
    to [pool.map]. *)
Definition build_change_graphs (dirs : list repo_dir) : list (list commit) :=
  map (λ d, _extract_commits (dir_repo d) (dir_history d))
      (List.filter (λ d, negb (startswith (r_name (dir_repo d)) "_")) dirs).

(** [_get_repo_url]: [stdout] is the decoded output of
    [git config --get remote.origin.url], run in the repository. *)
Definition _get_repo_url (stdout : string) : string := Py.strip stdout.

End GitAnalyzer.

(** ** Concrete collaborators and inputs

    Small files with the trees [ast.parse] builds for them, used to run
    the pipeline. *)

Module Examples.

Definition nl : string := String Py.LF "".

(** A one-line [def] at line [ln], columns 0 to 17. *)
Definition def_at (fname : string) (ln : Z) : stmt :=
  FunctionDef fname (mkPos ln 0 (Some ln) (Some 17)) [].

(** [def f(): return 1 / def g(): return 1 / def h(): return 1] and the
    same file with [return 2]. *)
Definition three_v1 : string :=
  "def f(): return 1" +:+ nl +:+ "def g(): return 1" +:+ nl +:+ "def h(): return 1".
Definition three_v2 : string :=
  "def f(): return 2" +:+ nl +:+ "def g(): return 2" +:+ nl +:+ "def h(): return 2".
Definition three_ast : list stmt := [def_at "f" 1; def_at "g" 2; def_at "h" 3].

(** Files that start with an empty line. *)
Definition blank_v1 : string :=
  nl +:+ "def f(): return 1" +:+ nl +:+ "def g(): return 2" +:+ nl.
Definition blank_v2 : string :=
  nl +:+ "def f(): return 1" +:+ nl +:+ "def g(): return 3" +:+ nl.
Definition blank_ast : list stmt := [def_at "f" 2; def_at "g" 3].

(** [class Outer: class Inner: def run(self): pass] *)
Definition nested_src : string :=
  "class Outer:" +:+ nl +:+ "  class Inner:" +:+ nl +:+ "    def run(self): pass".
Definition nested_ast : list stmt :=
  [ ClassDef "Outer" (mkPos 1 0 (Some 3) (Some 23))
      [ ClassDef "Inner" (mkPos 2 2 (Some 3) (Some 23))
          [ FunctionDef "run" (mkPos 3 4 (Some 3) (Some 23))
              [ OtherNode (mkPos 3 19 (Some 3) (Some 23)) [] ] ] ] ].

(** [x = ---...---1], with 600 signs: an assignment of [height] unary
    operations, one below the other, on a constant (the nodes without a
    position, operators and contexts, are left out). *)
Fixpoint tower (height : nat) (col : Z) : stmt :=
  match height with
  | O => OtherNode (mkPos 1 col (Some 1) (Some 605)) []
  | S height' =>
      OtherNode (mkPos 1 col (Some 1) (Some 605)) [tower height' (col + 1)]
  end.
Definition deep_src : string :=
  "x = " +:+ String.concat "" (replicate 600 "-") +:+ "1".
Definition deep_ast : list stmt :=
  [ OtherNode (mkPos 1 0 (Some 1) (Some 605))
      [ OtherNode (mkPos 1 0 (Some 1) (Some 1)) []; tower 600 4 ] ].

Definition parse_table : list (string * list stmt) :=
  [ ("def f(): return 1", [def_at "f" 1]);
    ("def f(): return 2", [def_at "f" 1]);
    (three_v1, three_ast); (three_v2, three_ast);
    (blank_v1, blank_ast); (blank_v2, blank_ast);
    (nested_src, nested_ast);
    (deep_src, deep_ast) ].

Definition parse (text : string) : result (list stmt) :=
  match dict_get parse_table text with
  | Some body => Ret body
  | None => Raise SyntaxError
  end.

(** A stack that suffices for trees of up to 490 levels: the visitor
    takes two frames of the interpreter for each level, out of 1000. *)
Definition overflows (body : list stmt) : bool :=
  (490 <? foldr Nat.max 0 (map nesting body))%nat.

(** A builder that pairs the two texts and fails on [g]. *)
Definition build (old_text new_text : string) (info : RepoInfo) (h : heap)
  : result (string * string) :=
  if String.eqb old_text "def g(): return 1"
  then Raise (OtherError "unsupported")
  else Ret (old_text, new_text).

Definition collaborators (store_interval : Z) : Collaborators :=
  {| ChangeGraph := string * string;
     ast_parse := parse;
     visit_overflows := overflows;
     build_from_files := build;
     uuid4 := λ n, pretty n;
     STORE_INTERVAL := store_interval |}.

Definition repo : repository := mkRepo "demo" "/repos/demo" "git@host:demo.git".

Definition modify (old_text new_text : string) : modification :=
  mkMod MODIFY (Some old_text) (Some "a.py") (Some new_text) (Some "a.py").

Definition commit_f : commit :=
  mkCommit 1 "c0ffee" "edit f" [modify "def f(): return 1" "def f(): return 2"] repo.

Definition commit_three : commit :=
  mkCommit 2 "decade" "edit all" [modify three_v1 three_v2] repo.

Definition commit_blank : commit :=
  mkCommit 3 "facade" "edit g" [modify blank_v1 blank_v2] repo.

Definition history : list pd_commit :=
  [ mkPdCommit "000001" "initial" []
      [mkPdMod ADD None None (Some "def f(): return 1") (Some "a.py")];
    mkPdCommit "c0ffee" "edit f" ["000001"]
      [mkPdMod MODIFY (Some "def f(): return 1") (Some "a.py")
               (Some "def f(): return 2") (Some "a.py")] ].

(** The collaborators with the flush thresholds used below. *)
Definition W2 : Collaborators := collaborators 2.
Definition W300 : Collaborators := collaborators 300.

(** The state of a worker after both versions of [three_v1] have been
    through [_extract_methods]: objects 0 to 2 are the old [f], [g], [h],
    objects 3 to 5 the new ones. *)
Definition three_extracted : @state W2 :=
  (@GitAnalyzer._extract_methods W2 "a.py" (Some three_v2)
     (@GitAnalyzer._extract_methods W2 "a.py" (Some three_v1) (@initial W2)).2).2.

(** A heap in which every method is called [f]. *)
Definition namesakes : heap :=
  [ Method_init "a.py" "f" (def_at "f" 1) "def f(): return 1";
    Method_init "a.py" "f" (def_at "f" 2) "def f(): return 2";
    Method_init "a.py" "f" (def_at "f" 3) "def f(): return 3" ].

(** A modification that is not of kind [MODIFY]. *)
Definition added : modification :=
  mkMod ADD None None (Some "def f(): return 1") (Some "a.py").

(** A modification whose old text does not parse. *)
Definition broken : modification := modify "def f(: return" "def f(): return 2".


(** A record of kind [MODIFY] without paths. *)
Definition no_path : modification :=
  mkMod MODIFY (Some "def f(): return 1") None (Some "def f(): return 2") None.

Definition commit_lost : commit :=
  mkCommit 4 "b1ade5" "edit f, then a record without paths"
    [modify "def f(): return 1" "def f(): return 2"; no_path] repo.

Definition commit_added : commit := mkCommit 5 "added1" "add a.py" [added] repo.

(** The state of a worker after both versions of [blank_v1] have been
    through [_extract_methods]: objects 0 and 1 are the old [f] and [g],
    objects 2 and 3 the new ones. *)
Definition blank_extracted : @state W2 :=
  (@GitAnalyzer._extract_methods W2 "a.py" (Some blank_v2)
     (@GitAnalyzer._extract_methods W2 "a.py" (Some blank_v1) (@initial W2)).2).2.

(** A modification whose old text parses to a tree too deep for the
    visitor. *)
Definition deep : modification := modify deep_src "def f(): return 2".

(** A commit whose message has three lines. *)
Definition commit_lines : commit :=
  mkCommit 6 "5ca1ab" ("edit f" +:+ nl +:+ nl +:+ "and nothing else")
    [modify "def f(): return 1" "def f(): return 2"] repo.

(** Two directories, one of them set aside. *)
Definition dirs : list GitAnalyzer.repo_dir :=
  [ GitAnalyzer.mkRepoDir repo history;
    GitAnalyzer.mkRepoDir (mkRepo "_old" "/repos/_old" "git@host:old.git") history ].

End Examples.

(** ** Notions used to state the properties *)

Local Close Scope Z_scope.
Local Open Scope nat_scope.

(** The [def]s of a tree that lie directly in the module or in (possibly
    nested) class bodies, in source order, each with the names of the
    classes around it, outermost first, and its own name.  [classes] are
    the classes around [node]. *)
Fixpoint class_paths (classes : list string) (node : stmt)
  : list (list string * string) :=
  match node with
  | FunctionDef fname _ _ => [(classes, fname)]
  | ClassDef cname _ body => flat_map (class_paths (classes ++ [cname])) body
  | OtherNode _ _ => []
  end.

Definition dot_join (names : list string) : string := String.concat "." names.

(** The attributes of the objects [refs] point to in [h]. *)
Definition attributes_of (h : heap) (refs : list ref)
  : list (option (string * string)) :=
  map (λ r, (λ m, (full_name m, name m)) <$> h !! r) refs.

(** What a visit that starts in heap [h] and returns [refs] in heap [h']
    guarantees: the objects of [h] are untouched, [refs] are distinct new
    objects, and they carry the names [paths] prescribes. *)
Definition extracted (h : heap) (refs : list ref) (h' : heap)
    (paths : list (list string * string)) : Prop :=
  length h ≤ length h'
  ∧ (∀ i, i < length h → h' !! i = h !! i)
  ∧ NoDup refs
  ∧ (∀ r, r ∈ refs → length h ≤ r < length h')
  ∧ Forall2 (λ r p, ∃ m, h' !! r = Some m
                        ∧ full_name m = dot_join (p.1 ++ [p.2])
                        ∧ name m = p.2) refs paths.


(** The graphs the builder returned in [calls], in order. *)
Definition graphs_built `{Collaborators} (calls : list builder_call)
  : list ChangeGraph :=
  omap (λ k, match call_result k with Ret g => Some g | Raise _ => None end) calls.

(** The path is there and ends with [.py]. *)
Definition ends_py (p : option string) : bool :=
  match p with
  | Some s => Py.endswith s ".py"
  | None => false
  end.

Definition has_parents (c : pd_commit) : bool :=
  match parents c with
  | [] => false
  | _ :: _ => true
  end.

(** The inner loop of [_get_methods_mapping] for one old method. *)
Definition scan_new (h : heap) (new_methods : list ref) (d : dict ref ref) (old : ref)
  : dict ref ref :=
  foldl (λ d new_method,
           if String.eqb (full_name (h !!! old)) (full_name (h !!! new_method))
           then dict_set d old new_method else d)
        d new_methods.

(** The builder was given two non-empty texts that differ. *)
Definition good_call `{Collaborators} (k : builder_call) : Prop :=
  call_old_text k ≠ "" ∧ call_new_text k ≠ "" ∧ call_old_text k ≠ call_new_text k.

(** Parsing the text of one side of a modification fails. *)
Definition parse_fails `{Collaborators} (source : option string) : Prop :=
  match source with
  | Some text => ∃ e, ast_parse text = Raise e
  | None => True
  end.

(** In [st'] the process has made the builder calls and written the
    files it had in [st], and no others. *)
Definition same_output `{Collaborators} (st st' : state) : Prop :=
  builder_calls st' = builder_calls st ∧ stored st' = stored st.

(** Since [st] the process has only made builder calls of two non-empty
    texts that differ. *)
Definition calls_extend `{Collaborators} (st st' : state) : Prop :=
  ∃ new, builder_calls st' = builder_calls st ++ new ∧ Forall good_call new.

(** The batch [cgs] of a task that started in [st0], with flush threshold
    [N]: the files written since then are full batches, the batch is not
    full, and files and batch together hold the graphs built since then,
    in order. *)
Definition batch_inv `{Collaborators} (N : nat) (st0 : state)
    (cgs : list ChangeGraph) (st : state) : Prop :=
  ∃ files calls,
    stored st = stored st0 ++ files
    ∧ builder_calls st = builder_calls st0 ++ calls
    ∧ Forall (λ f, length f.2 = N) files
    ∧ length cgs < N
    ∧ concat files.*2 ++ cgs = graphs_built calls.

(** [⌈k/n⌉] *)
Definition ceil_div (k n : nat) : nat := (k + n - 1) / n.

(** ** Further notions: records, matching, extraction, growth *)

(** The dictionary [_extract_commits] builds for one modification. *)
Definition to_modification (m : pd_modification) : modification :=
  mkMod (change_type m) (source_code_before m) (pd_old_path m)
        (source_code m) (pd_new_path m).

(** Some method of [new_methods] has the qualified name of [old]. *)
Definition has_namesake (h : heap) (new_methods : list ref) (old : ref) : bool :=
  existsb (λ n, String.eqb (full_name (h !!! old)) (full_name (h !!! n)))
          new_methods.

(** The methods of [new_methods] that have the qualified name of [old]. *)
Definition namesakes_of (h : heap) (new_methods : list ref) (old : ref) : list ref :=
  List.filter (λ n, String.eqb (full_name (h !!! old)) (full_name (h !!! n)))
              new_methods.

(** [m] is as [visit_FunctionDef] of the extractor for [path] and
    [source] makes it, up to its qualified name. *)
Definition made_by (path source : string) (m : Method) : Prop :=
  file_path m = path ∧ src m = Py.strip source
  ∧ ∃ p body, ast m = FunctionDef (name m) p body.

(** [s] holds no line feed. *)
Fixpoint no_line_feed (s : string) : bool :=
  match s with
  | EmptyString => true
  | String ch s' => negb (Ascii.eqb ch Py.LF) && no_line_feed s'
  end.

(** The name of the [i]th file a process writes. *)
Definition file_name `{Collaborators} (i : nat) : string := uuid4 i +:+ ".pickle".

(** Everything a process keeps only grows: [st'] has the objects, the
    records, the calls and the files of [st], unchanged and in place,
    followed by new ones. *)
Definition grows `{Collaborators} (st st' : state) : Prop :=
  objects st `prefix_of` objects st'
  ∧ logged st `prefix_of` logged st'
  ∧ extractions st `prefix_of` extractions st'
  ∧ builder_calls st `prefix_of` builder_calls st'
  ∧ stored st `prefix_of` stored st'
  ∧ uuid_calls st ≤ uuid_calls st'.

(** [o] and [n] are objects of [h] with the same qualified name. *)
Definition matched (h : heap) (o n : ref) : Prop :=
  o < length h ∧ n < length h ∧ full_name (h !!! o) = full_name (h !!! n).

(** The modification passes the two tests of the loop. *)
Definition fit (modif : modification) : bool :=
  bool_decide (m_type modif = MODIFY)
  && ends_py (old_path modif) && ends_py (new_path modif).

(** The files written between [st] and [st'] bear the names of the
    identifiers drawn between [st] and [st'], one each, in order. *)
Definition files_named `{Collaborators} (st st' : state) : Prop :=
  ∃ files,
    stored st' = stored st ++ files
    ∧ uuid_calls st' = uuid_calls st + length files
    ∧ files.*1 = map file_name (seq (uuid_calls st) (length files)).

(** The builder call [k] was made for commit [c], for two objects of [h]
    with the same qualified name, with the texts [get_source] gives for
    them. *)
Definition call_described `{Collaborators} (h : heap) (c : commit)
    (k : builder_call) : Prop :=
  repo_name (call_info k) = r_name (c_repo c)
  ∧ repo_path (call_info k) = r_path (c_repo c)
  ∧ repo_url (call_info k) = r_url (c_repo c)
  ∧ commit_hash (call_info k) = c_hash c
  ∧ matched h (old_method (call_info k)) (new_method (call_info k))
  ∧ get_source (h !!! old_method (call_info k)) = Some (call_old_text k)
  ∧ get_source (h !!! new_method (call_info k)) = Some (call_new_text k).

(** The builder calls made between [st] and [st'] are described, each for
    a commit that satisfies [P]. *)
Definition calls_described `{Collaborators} (P : commit → Prop)
    (st st' : state) : Prop :=
  objects st `prefix_of` objects st'
  ∧ ∃ calls,
      builder_calls st' = builder_calls st ++ calls
      ∧ Forall (λ k, ∃ c, P c ∧ call_described (objects st') c k) calls.

(** Each file written between [st] and [st'] holds at least one graph and
    at most as many as the flush threshold, or one if the threshold is
    below one. *)
Definition sizes_within `{Collaborators} (st st' : state) : Prop :=
  ∃ files,
    stored st' = stored st ++ files
    ∧ Forall (λ f, 1 ≤ length f.2
                   ∧ (Z.of_nat (length f.2) ≤ Z.max STORE_INTERVAL 1)%Z) files.


(** The objects of [h'] that are not in [h] are as the extractor for
    [path] and [source] makes them. *)
Definition allocated (path source : string) (h h' : heap) : Prop :=
  ∀ i m, length h ≤ i → h' !! i = Some m → made_by path source m.

(** The record a task logs first. *)
Definition start_record (c : commit) : log_entry :=
  mkLog INFO ("Looking at commit #" +:+ c_hash c +:+ ", msg: "
              +:+ GitAnalyzer.quote +:+ GitAnalyzer.replace_newlines (c_msg c)
              +:+ GitAnalyzer.quote).

(** [s] is made of white space only. *)
Definition all_space (s : string) : bool :=
  forallb Py.isspace (list_ascii_of_string s).

(** [s] does not start with white space. *)
Definition starts_clean (s : string) : bool :=
  match s with
  | EmptyString => true
  | String ch _ => negb (Py.isspace ch)
  end.

(** The calls of [_extract_methods] a modification leads to. *)
Definition sides (modif : modification) : list (string * option string) :=
  if fit modif
  then [(default "" (old_path modif), old_src modif);
        (default "" (new_path modif), new_src modif)]
  else [].

(** ** Further notions: what a task does, whatever the builder answers *)

(** The stack of the interpreter suffices for the visit of the tree of
    [source], where [source] parses. *)
Definition stack_suffices `{Collaborators} (source : option string) : bool :=
  match source with
  | Some text =>
      match ast_parse text with
      | Ret body => negb (visit_overflows body)
      | Raise _ => true
      end
  | None => true
  end.

(** What [_extract_methods] returns for [source] in heap [h], and the
    heap it leaves. *)
Definition extraction `{Collaborators} (path : string) (source : option string)
    (h : heap) : result (list ref * heap) :=
  match source with
  | Some text =>
      match ast_parse text with
      | Ret body =>
          if visit_overflows body then Raise RecursionError
          else Ret (ASTMethodExtractor.visit_Module path text body h)
      | Raise _ => Ret ([], h)
      end
  | None => Ret ([], h)
  end.









(** [s] with each line feed replaced by a semicolon and a space. *)
Definition line_feeds_replaced (s : string) : string :=
  string_of_list_ascii
    (flat_map (λ ch, if Ascii.eqb ch Py.LF then [";"; " "]%char else [ch])
              (list_ascii_of_string s)).

(* ================================================================= *)
(** * Properties *)

(** ** Induction on syntax trees *)

Lemma stmt_nested_ind (P : stmt → Prop) :
  (∀ fname p body, Forall P body → P (FunctionDef fname p body)) →
  (∀ cname p body, Forall P body → P (ClassDef cname p body)) →
  (∀ p children, Forall P children → P (OtherNode p children)) →
  ∀ node, P node.
Proof.
  intros Hdef Hclass Hother.
  fix IH 1.
  intros [fname p body | cname p body | p children].
  - apply Hdef. induction body as [|st body IHbody]; constructor; auto.
  - apply Hclass. induction body as [|st body IHbody]; constructor; auto.
  - apply Hother. induction children as [|st children IHc]; constructor; auto.
Qed.

(** ** Qualified names *)

Lemma dot_join_cons (c : string) (names : list string) :
  names ≠ [] → dot_join (c :: names) = c +:+ "." +:+ dot_join names.
Proof. destruct names; [done | reflexivity]. Qed.

Lemma class_paths_prefix (pre classes : list string) (node : stmt) :
  class_paths (pre ++ classes) node
  = map (λ p, (pre ++ p.1, p.2)) (class_paths classes node).
Proof.
  revert classes. induction node as [fname p body _ | cname p body IH | p ch _]
    using stmt_nested_ind; intros classes; simpl; try reflexivity.
  induction IH as [|st body Hst _ IHbody]; simpl; [reflexivity|].
  rewrite map_app, <- IHbody, <- Hst, app_assoc. reflexivity.
Qed.

Lemma Forall2_impl_elem {A B} (P Q : A → B → Prop) (l : list A) (k : list B) :
  Forall2 P l k → (∀ x y, x ∈ l → P x y → Q x y) → Forall2 Q l k.
Proof.
  induction 1 as [|x y l k Hxy _ IH]; intros Himpl; constructor.
  - apply Himpl; [by left | done].
  - apply IH. intros x' y' Hx'. apply Himpl. by right.
Qed.

Section Extraction.
Variables (path source : string).

Local Abbreviation visit := (ASTMethodExtractor.visit path source).
Local Abbreviation visit_body := (ASTMethodExtractor.visit_body visit).
Local Abbreviation generic_visit := (ASTMethodExtractor.generic_visit visit).
Local Abbreviation extend_all := ASTMethodExtractor.extend_all.

Lemma extracted_nil h : extracted h [] h [].
Proof.
  unfold extracted. split_and!; auto using NoDup_nil_2.
  intros r Hr. by apply elem_of_nil in Hr.
Qed.

Lemma extracted_forget h refs h' paths :
  extracted h refs h' paths → extracted h [] h' [].
Proof.
  intros (Hlen & Hold & _). unfold extracted.
  split_and!; auto using NoDup_nil_2.
  intros r Hr. by apply elem_of_nil in Hr.
Qed.

Lemma extracted_seq h refs1 h1 paths1 refs2 h2 paths2 :
  extracted h refs1 h1 paths1 → extracted h1 refs2 h2 paths2 →
  extracted h (refs1 ++ refs2) h2 (paths1 ++ paths2).
Proof.
  intros (Hlen1 & Hold1 & Hnd1 & Hin1 & Hn1) (Hlen2 & Hold2 & Hnd2 & Hin2 & Hn2).
  split; [lia|]. split; [|split; [|split]].
  - intros i Hi. rewrite Hold2 by lia. auto.
  - apply NoDup_app. split; [done|]. split; [|done].
    intros r Hr1 Hr2. apply Hin1 in Hr1. apply Hin2 in Hr2. lia.
  - intros r [Hr|Hr]%elem_of_app; [apply Hin1 in Hr | apply Hin2 in Hr]; lia.
  - apply Forall2_app; [|done].
    assert (Hall : Forall (λ r, r < length h1) refs1).
    { apply Forall_forall. intros r Hr. apply Hin1 in Hr. lia. }
    clear - Hn1 Hold2 Hall. induction Hn1 as [|r p refs paths Hrp _ IHn]; [constructor|].
    apply Forall_cons in Hall as [Hr Hall]. constructor; [|auto].
    destruct Hrp as (m & Hm & Hfull). exists m. rewrite Hold2 by done. done.
Qed.

Lemma length_extend_all prefix refs h :
  length (extend_all prefix refs h) = length h.
Proof.
  unfold extend_all. revert h. induction refs as [|r refs IH]; intros h; simpl; [done|].
  rewrite IH. apply length_alter.
Qed.

Lemma lookup_extend_all_notin prefix refs h i :
  i ∉ refs → extend_all prefix refs h !! i = h !! i.
Proof.
  unfold extend_all. revert h. induction refs as [|r refs IH]; intros h Hi; simpl; [done|].
  apply not_elem_of_cons in Hi as [Hne Hi].
  rewrite IH by done. apply list_lookup_alter_ne. congruence.
Qed.

Lemma lookup_extend_all_in prefix refs h i :
  NoDup refs → i ∈ refs →
  extend_all prefix refs h !! i = extend_path prefix <$> h !! i.
Proof.
  unfold extend_all. revert h. induction refs as [|r refs IH]; intros h Hnd Hi; simpl.
  - by apply elem_of_nil in Hi.
  - apply NoDup_cons in Hnd as [Hr Hnd].
    apply elem_of_cons in Hi as [->|Hi].
    + fold (extend_all prefix refs (alter (extend_path prefix) r h)).
      rewrite lookup_extend_all_notin by done. apply list_lookup_alter_eq.
    + rewrite IH by done. f_equal. apply list_lookup_alter_ne.
      intros ->. done.
Qed.

(** Prefixing the methods of a class body puts the class in front of
    their paths. *)
Lemma extracted_extend cname h refs h' paths :
  extracted h refs h' paths →
  extracted h refs (extend_all cname refs h')
            (map (λ p, (cname :: p.1, p.2)) paths).
Proof.
  intros (Hlen & Hold & Hnd & Hin & Hn).
  split; [by rewrite length_extend_all|]. split; [|split; [done|split]].
  - intros i Hi. rewrite lookup_extend_all_notin; [auto|].
    intros Hr. apply Hin in Hr. lia.
  - intros r Hr. rewrite length_extend_all. auto.
  - apply Forall2_fmap_r.
    eapply Forall2_impl_elem; [exact Hn|].
    intros r p Hr (m & Hm & Hfull & Hname).
    exists (extend_path cname m). split; [|split; [|done]].
    + by rewrite lookup_extend_all_in, Hm.
    + simpl. rewrite Hfull. symmetry.
      apply (dot_join_cons cname (p.1 ++ [p.2])). by destruct (p.1).
Qed.

Lemma visit_body_acc (body : list stmt) (methods : list ref) (h : heap) :
  visit_body body methods h
  = (methods ++ (visit_body body [] h).1, (visit_body body [] h).2).
Proof.
  revert methods h. induction body as [|st body IH]; intros methods h; simpl.
  - by rewrite app_nil_r.
  - destruct (visit st h) as [result h1].
    rewrite IH. rewrite (IH (match result with Some (r :: rs) => r :: rs | _ => [] end)).
    simpl. destruct result as [[|r rs]|]; simpl; by rewrite <- ?app_assoc.
Qed.

Lemma visit_body_extracted (body : list stmt) :
  Forall (λ st, ∀ h, extracted h (default [] (visit st h).1) (visit st h).2
                       (class_paths [] st)) body →
  ∀ h, extracted h (visit_body body [] h).1 (visit_body body [] h).2
         (flat_map (class_paths []) body).
Proof.
  induction 1 as [|st body Hst _ IH]; intros h; simpl.
  - apply extracted_nil.
  - specialize (Hst h). destruct (visit st h) as [result h1]. simpl in Hst.
    rewrite visit_body_acc. simpl.
    replace (match result with Some (r :: rs) => r :: rs | _ => [] end)
      with (default [] result) by (by destruct result as [[|]|]).
    eapply extracted_seq; [exact Hst | apply IH].
Qed.

Lemma generic_visit_extracted (children : list stmt) :
  Forall (λ st, ∀ h, extracted h (default [] (visit st h).1) (visit st h).2
                       (class_paths [] st)) children →
  ∀ h, extracted h [] (generic_visit children h) [].
Proof.
  induction 1 as [|st children Hst _ IH]; intros h; simpl.
  - apply extracted_nil.
  - apply (extracted_seq h [] (visit st h).2 [] [] _ []); [|apply IH].
    eapply extracted_forget, Hst.
Qed.

Lemma class_paths_in_class (cname : string) (body : list stmt) :
  flat_map (class_paths [cname]) body
  = map (λ p, (cname :: p.1, p.2)) (flat_map (class_paths []) body).
Proof.
  induction body as [|st body IH]; simpl; [done|].
  rewrite map_app, <- IH. f_equal.
  apply (class_paths_prefix [cname] [] st).
Qed.

(** [visit] on a class is [visit_ClassDef]. *)
Lemma visit_ClassDef_eq (cname : string) (p : position) (body : list stmt)
    (h : heap) :
  visit (ClassDef cname p body) h
  = let '(methods, h') :=
      ASTMethodExtractor.visit_ClassDef path source cname body h in
    (Some methods, h').
Proof.
  unfold ASTMethodExtractor.visit_ClassDef. simpl.
  by destruct (visit_body body [] h).
Qed.

Lemma visit_extracted (node : stmt) (h : heap) :
  extracted h (default [] (visit node h).1) (visit node h).2 (class_paths [] node).
Proof.
  revert h. induction node as [fname p body _ | cname p body IH | p children IH]
    using stmt_nested_ind; intros h.
  - simpl. unfold extracted. rewrite length_app. simpl. split_and!.
    + lia.
    + intros i Hi. by apply lookup_app_l.
    + apply NoDup_singleton.
    + intros r ->%list_elem_of_singleton. lia.
    + constructor; [|constructor].
      eexists. split; [apply list_lookup_middle; reflexivity|]. done.
  - simpl. pose proof (visit_body_extracted body IH h) as Hbody.
    destruct (visit_body body [] h) as [methods h1]. simpl in *.
    rewrite class_paths_in_class. by apply extracted_extend.
  - simpl. by apply generic_visit_extracted.
Qed.

(** The methods [visit_Module] returns are the [def]s found through class
    bodies, with their dotted names. *)
Lemma visit_Module_attributes (body : list stmt) (h : heap) :
  let '(methods, h') := ASTMethodExtractor.visit_Module path source body h in
  attributes_of h' methods
  = map (λ p, Some (dot_join (p.1 ++ [p.2]), p.2)) (flat_map (class_paths []) body).
Proof.
  unfold ASTMethodExtractor.visit_Module.
  assert (Hall : Forall (λ st, ∀ h, extracted h (default [] (visit st h).1)
                                      (visit st h).2 (class_paths [] st)) body).
  { apply Forall_forall. intros st _ h0. apply visit_extracted. }
  pose proof (visit_body_extracted body Hall h) as (_ & _ & _ & _ & Hn).
  destruct (visit_body body [] h) as [methods h']. simpl in Hn.
  unfold attributes_of.
  induction Hn as [|r p refs paths (m & Hm & Hfull & Hname) _ IHn]; simpl; [done|].
  by rewrite IHn, Hm, <- Hfull, <- Hname.
Qed.
End Extraction.


(** ** Commit records *)

Lemma _extract_commits_snoc (repo : repository) (history : list pd_commit)
    (c : pd_commit) :
  parents c = [] →
  GitAnalyzer._extract_commits repo (history ++ [c])
  = GitAnalyzer._extract_commits repo history.
Proof.
  intros Hroot. unfold GitAnalyzer._extract_commits.
  rewrite foldl_app. simpl. by rewrite Hroot.
Qed.

(** The records are those of the commits that have a parent, in order. *)
Lemma _extract_commits_records (repo : repository) (history : list pd_commit) :
  Forall2 (λ record c, c_hash record = pd_hash c ∧ c_msg record = pd_msg c
                       ∧ c_repo record = repo ∧ parents c ≠ [])
          (GitAnalyzer._extract_commits repo history)
          (List.filter has_parents history).
Proof.
  induction history as [|c history IH] using rev_ind; [constructor|].
  unfold GitAnalyzer._extract_commits in *. rewrite foldl_app, List.filter_app.
  simpl. unfold has_parents at 2.
  destruct (parents c) as [|parent more] eqn:Hparents; simpl.
  - by rewrite app_nil_r.
  - apply Forall2_app; [done|]. constructor; [|constructor].
    simpl. by rewrite Hparents.
Qed.

Lemma _extract_commits_skip (repo : repository) (before after : list pd_commit)
    (c : pd_commit) :
  parents c = [] →
  GitAnalyzer._extract_commits repo (before ++ c :: after)
  = GitAnalyzer._extract_commits repo (before ++ after).
Proof.
  intros Hroot. unfold GitAnalyzer._extract_commits.
  rewrite !foldl_app. simpl. by rewrite Hroot.
Qed.

(** ** The matcher *)

Section Matcher.
Variable h : heap.
Local Abbreviation scan_new := (scan_new h).

Lemma dict_get_set_eq {V} (d : dict ref V) (k : ref) (v : V) :
  dict_get (dict_set d k v) k = Some v.
Proof.
  induction d as [|[k' v'] d IH]; simpl.
  - by rewrite decide_True.
  - destruct (decide (k = k')) as [->|Hne]; simpl.
    + by rewrite decide_True.
    + by rewrite decide_False.
Qed.

Lemma dict_get_set_ne {V} (d : dict ref V) (k k' : ref) (v : V) :
  k ≠ k' → dict_get (dict_set d k v) k' = dict_get d k'.
Proof.
  intros Hne. induction d as [|[k0 v0] d IH]; simpl.
  - by rewrite decide_False.
  - destruct (decide (k = k0)) as [->|Hk]; simpl.
    + by rewrite !decide_False.
    + destruct (decide (k' = k0)); [done | apply IH].
Qed.

Lemma dict_get_elem_of {V} (d : dict ref V) (k : ref) (v : V) :
  dict_get d k = Some v → (k, v) ∈ d.
Proof.
  induction d as [|[k0 v0] d IH]; simpl; [done|].
  destruct (decide (k = k0)) as [->|Hk].
  - intros [= ->]. by left.
  - intros Hget. right. by apply IH.
Qed.

Lemma scan_new_other (new_methods : list ref) (d : dict ref ref) (old o : ref) :
  old ≠ o → dict_get (scan_new new_methods d old) o = dict_get d o.
Proof.
  intros Hne. unfold scan_new. revert d.
  induction new_methods as [|n news IH]; intros d; simpl; [done|].
  rewrite IH. destruct (String.eqb _ _); [by apply dict_get_set_ne | done].
Qed.

Lemma scan_new_no_match (new_methods : list ref) (d : dict ref ref) (old : ref) :
  Forall (λ n, full_name (h !!! n) ≠ full_name (h !!! old)) new_methods →
  scan_new new_methods d old = d.
Proof.
  unfold scan_new. intros Hall. revert d.
  induction Hall as [|n news Hn _ IH]; intros d; simpl; [done|].
  destruct (String.eqb_spec (full_name (h !!! old)) (full_name (h !!! n))) as [Heq|_].
  - by destruct Hn.
  - apply IH.
Qed.

Lemma scan_new_last (before after : list ref) (d : dict ref ref) (old n : ref) :
  full_name (h !!! old) = full_name (h !!! n) →
  Forall (λ n', full_name (h !!! n') ≠ full_name (h !!! old)) after →
  dict_get (scan_new (before ++ n :: after) d old) old = Some n.
Proof.
  intros Heq Hafter. unfold scan_new. rewrite foldl_app. simpl.
  assert (String.eqb (full_name (h !!! old)) (full_name (h !!! n)) = true)
    as -> by (by apply String.eqb_eq).
  match goal with |- context [dict_set ?d0 old n] =>
    change (dict_get (scan_new after (dict_set d0 old n) old) old = Some n) end.
  rewrite scan_new_no_match by done. apply dict_get_set_eq.
Qed.

Lemma _get_methods_mapping_fold (old_methods new_methods : list ref) :
  GitAnalyzer._get_methods_mapping h old_methods new_methods
  = foldl (scan_new new_methods) [] old_methods.
Proof. reflexivity. Qed.

(** An old method with a namesake on the new side is mapped to the last
    namesake. *)
Lemma mapping_last_wins (old_methods before after : list ref) (old n : ref) :
  old ∈ old_methods →
  full_name (h !!! old) = full_name (h !!! n) →
  Forall (λ n', full_name (h !!! n') ≠ full_name (h !!! old)) after →
  dict_get (GitAnalyzer._get_methods_mapping h old_methods (before ++ n :: after)) old
  = Some n.
Proof.
  intros Hin Heq Hafter. rewrite _get_methods_mapping_fold.
  assert (Hgen : ∀ d, old ∈ old_methods ∨ dict_get d old = Some n →
                  dict_get (foldl (scan_new (before ++ n :: after)) d old_methods) old
                  = Some n).
  { clear Hin. induction old_methods as [|o olds IH]; intros d Hd; simpl.
    - destruct Hd as [Hd|Hd]; [by apply elem_of_nil in Hd | done].
    - apply IH. destruct (decide (o = old)) as [->|Hne].
      + right. by apply scan_new_last.
      + destruct Hd as [[?|Hd]%elem_of_cons|Hd]; [congruence | by left |].
        right. by rewrite scan_new_other. }
  apply Hgen. by left.
Qed.

(** With no method on one side nothing is matched. *)
Lemma mapping_no_new (old_methods : list ref) :
  GitAnalyzer._get_methods_mapping h old_methods [] = [].
Proof.
  rewrite _get_methods_mapping_fold. by induction old_methods.
Qed.
End Matcher.

(** ** The worker monad *)

Section Pipeline.
Context `{Collaborators}.

Lemma for_each_app {A B} (body : A → B → M B) (l1 l2 : list A) (acc : B) (st : state) :
  for_each body (l1 ++ l2) acc st
  = match for_each body l1 acc st with
    | (Ret acc', st') => for_each body l2 acc' st'
    | (Raise e, st') => (Raise e, st')
    end.
Proof.
  revert acc st. induction l1 as [|x l1 IH]; intros acc st; simpl; [done|].
  unfold mbind. destruct (body x acc st) as [[acc'|e] st']; [apply IH | done].
Qed.

(** A loop keeps what each of its rounds keeps: [Inv] of the loop variable
    and the state while it runs, [Exit] of the state when it raises. *)
Lemma for_each_invariant {A B} (Inv : B → state → Prop) (Exit : state → Prop)
    (body : A → B → M B) (l : list A) :
  (∀ x acc st, x ∈ l → Inv acc st →
     match body x acc st with
     | (Ret acc', st') => Inv acc' st'
     | (Raise _, st') => Exit st'
     end) →
  ∀ acc st, Inv acc st →
    match for_each body l acc st with
    | (Ret acc', st') => Inv acc' st'
    | (Raise _, st') => Exit st'
    end.
Proof.
  induction l as [|x l IH]; intros Hbody acc st Hinv; simpl; [done|].
  unfold mbind. pose proof (Hbody x acc st (list_elem_of_here _ _) Hinv) as Hx.
  destruct (body x acc st) as [[acc'|e] st']; [|done].
  apply IH; [|done]. intros y acc0 st0 Hy. apply Hbody. by right.
Qed.


(** ** The filter in front of the builder *)

Lemma filter_passes (os ns : option string) :
  negb (forallb Py.truthy [os; ns]) || bool_decide (os = ns) = false ↔
  ∃ a b, os = Some a ∧ ns = Some b ∧ a ≠ "" ∧ b ≠ "" ∧ a ≠ b.
Proof.
  split.
  - intros [Hall Hne]%orb_false_iff.
    apply negb_false_iff in Hall. simpl in Hall.
    apply andb_prop in Hall as [Ho Hn%andb_prop%proj1].
    apply bool_decide_eq_false in Hne.
    destruct os as [[|c a]|]; [done| |done].
    destruct ns as [[|c' b]|]; [done| |done].
    eexists _, _. split_and!; [done|done|done|done|]. congruence.
  - intros (a & b & -> & -> & Ha & Hb & Hab).
    apply orb_false_iff. split.
    + destruct a; [done|]. by destruct b.
    + apply bool_decide_eq_false. congruence.
Qed.

Lemma get_source_of_spec (method : ref) (st : state) :
  ∃ extra,
    GitAnalyzer.get_source_of method st
    = (Ret (get_source (objects st !!! method)),
       mkState (objects st) (logged st ++ extra) (extractions st)
               (builder_calls st) (stored st) (uuid_calls st))
    ∧ (is_Some (get_source (objects st !!! method)) → extra = []).
Proof.
  unfold GitAnalyzer.get_source_of, get_source, mbind, get_heap, mret, logger_log.
  destruct (get_source_segment _ _) as [segment|e]; simpl.
  - exists []. rewrite app_nil_r. by destruct st.
  - eexists. split; [reflexivity|]. by intros [? ?].
Qed.

Lemma state_eta (st : state) :
  mkState (objects st) (logged st ++ []) (extractions st) (builder_calls st)
          (stored st) (uuid_calls st) = st.
Proof. destruct st. simpl. by rewrite app_nil_r. Qed.

(** A pair the filter rejects only leaves log records. *)
Lemma process_pair_filtered (c : commit) (o n : ref) (cgs : list ChangeGraph)
    (st : state) :
  negb (forallb Py.truthy [get_source (objects st !!! o);
                           get_source (objects st !!! n)])
  || bool_decide (get_source (objects st !!! o) = get_source (objects st !!! n))
  = true →
  ∃ extra,
    GitAnalyzer.process_pair c (o, n) cgs st
    = (Ret cgs, mkState (objects st) (logged st ++ extra) (extractions st)
                        (builder_calls st) (stored st) (uuid_calls st)).
Proof.
  intros Hskip. unfold GitAnalyzer.process_pair, mbind.
  destruct (get_source_of_spec o st) as (extra1 & -> & _).
  match goal with |- context [GitAnalyzer.get_source_of n ?st1] =>
    destruct (get_source_of_spec n st1) as (extra2 & -> & _) end.
  simpl. simpl in Hskip. rewrite Hskip.
  exists (extra1 ++ extra2). unfold mret. by rewrite app_assoc.
Qed.

(** A pair the filter lets through goes to the builder. *)
Lemma process_pair_built (c : commit) (o n : ref) (cgs : list ChangeGraph)
    (st : state) (a b : string) :
  get_source (objects st !!! o) = Some a →
  get_source (objects st !!! n) = Some b →
  a ≠ "" → b ≠ "" → a ≠ b →
  GitAnalyzer.process_pair c (o, n) cgs st
  = let info := mkRepoInfo (r_name (c_repo c)) (r_path (c_repo c))
                           (r_url (c_repo c)) (c_hash c) o n in
    let st1 := (call_builder a b info st).2 in
    match build_from_files a b info (objects st) with
    | Raise _ =>
        (Ret cgs,
         (logger_log ERROR (GitAnalyzer.build_failure_message c (objects st !!! o))
                     st1).2)
    | Ret cg =>
        if (STORE_INTERVAL <=? Z.of_nat (length (cgs ++ [cg])))%Z
        then (Ret [], (GitAnalyzer._store_change_graphs (cgs ++ [cg]) st1).2)
        else (Ret (cgs ++ [cg]), st1)
    end.
Proof.
  intros Ho Hn Ha Hb Hab. unfold GitAnalyzer.process_pair, mbind.
  destruct (get_source_of_spec o st) as (extra1 & -> & Hnil1).
  rewrite Hnil1 by (by rewrite Ho). rewrite state_eta.
  destruct (get_source_of_spec n st) as (extra2 & -> & Hnil2).
  rewrite Hnil2 by (by rewrite Hn). rewrite state_eta.
  rewrite Ho, Hn.
  assert (negb (forallb Py.truthy [Some a; Some b])
          || bool_decide (Some a = Some b) = false) as ->.
  { apply filter_passes. by eexists _, _. }
  simpl. destruct (build_from_files a b _ (objects st)) as [cg|e]; simpl.
  - by destruct (STORE_INTERVAL <=? _)%Z.
  - done.
Qed.

(** ** Method extraction *)

(** [_extract_methods] returns what [extraction] says, or raises what it
    says; it logs at level [INFO] only and makes no call and no file. *)
Lemma _extract_methods_extraction (path : string) (source : option string)
    (st : state) :
  ∃ extra,
    Forall (λ e, level e = INFO) extra
    ∧ GitAnalyzer._extract_methods path source st
      = (match extraction path source (objects st) with
         | Ret (refs, _) => Ret refs
         | Raise e => Raise e
         end,
         mkState (match extraction path source (objects st) with
                  | Ret (_, h') => h'
                  | Raise _ => objects st
                  end)
                 (logged st ++ extra) (extractions st ++ [(path, source)])
                 (builder_calls st) (stored st) (uuid_calls st)).
Proof.
  unfold GitAnalyzer._extract_methods, extraction, mbind, enter_extract_methods,
    logger_log, mret, on_heap, raise.
  destruct source as [text|]; simpl.
  - destruct (ast_parse text) as [body|e]; simpl.
    + destruct (visit_overflows body); simpl.
      * exists []. by rewrite app_nil_r.
      * destruct (ASTMethodExtractor.visit_Module path text body (objects st))
          as [refs h'] eqn:Hvisit.
        exists []. by rewrite app_nil_r.
    + eexists [_]. split; [|reflexivity]. by constructor.
  - eexists [_]. split; [|reflexivity]. by constructor.
Qed.

Lemma _extract_methods_spec (path : string) (source : option string) (st : state) :
  ∃ r h' extra,
    GitAnalyzer._extract_methods path source st
    = (r,
       mkState h' (logged st ++ extra) (extractions st ++ [(path, source)])
               (builder_calls st) (stored st) (uuid_calls st)).
Proof.
  destruct (_extract_methods_extraction path source st) as (extra & _ & ->).
  by eexists _, _, _.
Qed.

(** Where the stack suffices, [_extract_methods] returns. *)
Lemma _extract_methods_returns (path : string) (source : option string)
    (st : state) :
  stack_suffices source = true →
  ∃ refs h' extra,
    GitAnalyzer._extract_methods path source st
    = (Ret refs,
       mkState h' (logged st ++ extra) (extractions st ++ [(path, source)])
               (builder_calls st) (stored st) (uuid_calls st)).
Proof.
  intros Hstack.
  destruct (_extract_methods_extraction path source st) as (extra & _ & ->).
  unfold extraction, stack_suffices in *.
  destruct source as [text|]; [|by eexists _, _, _].
  destruct (ast_parse text) as [body|e]; [|by eexists _, _, _].
  apply negb_true_iff in Hstack. rewrite Hstack.
  destruct (ASTMethodExtractor.visit_Module path text body (objects st))
    as [refs h'].
  by eexists _, _, _.
Qed.

(** Where the stack does not suffice, it raises [RecursionError]. *)
Lemma _extract_methods_overflow (path : string) (source : option string)
    (st : state) :
  stack_suffices source = false →
  GitAnalyzer._extract_methods path source st
  = (Raise RecursionError,
     mkState (objects st) (logged st) (extractions st ++ [(path, source)])
             (builder_calls st) (stored st) (uuid_calls st)).
Proof.
  unfold stack_suffices, GitAnalyzer._extract_methods, mbind,
    enter_extract_methods, raise.
  destruct source as [text|]; [|done].
  destruct (ast_parse text) as [body|e]; [|done].
  intros ->%negb_false_iff. done.
Qed.

Lemma _extract_methods_failure (path : string) (source : option string) (st : state) :
  parse_fails source →
  GitAnalyzer._extract_methods path source st
  = (Ret [],
     mkState (objects st)
             (logged st ++ [mkLog INFO "Unable to compile src and extract methods"])
             (extractions st ++ [(path, source)])
             (builder_calls st) (stored st) (uuid_calls st)).
Proof.
  unfold GitAnalyzer._extract_methods, mbind, enter_extract_methods, logger_log,
    mret, parse_fails.
  destruct source as [text|]; simpl; [|done].
  by intros [e ->].
Qed.

(** ** Rounds of the two loops of a task *)

Lemma _store_change_graphs_spec (graphs : list ChangeGraph) (st : state) :
  ∃ extra,
    GitAnalyzer._store_change_graphs graphs st
    = (Ret (),
       mkState (objects st) (logged st ++ extra) (extractions st) (builder_calls st)
               (stored st ++ [(uuid4 (uuid_calls st) +:+ ".pickle", graphs)])
               (S (uuid_calls st))).
Proof.
  unfold GitAnalyzer._store_change_graphs, mbind, new_uuid, logger_log, pickle_dump.
  simpl. eexists [_; _]. by rewrite <- app_assoc.
Qed.

Lemma process_pair_total (c : commit) (pair : ref * ref) (cgs : list ChangeGraph)
    (st : state) :
  ∃ cgs', (GitAnalyzer.process_pair c pair cgs st).1 = Ret cgs'.
Proof.
  destruct pair as [o n].
  destruct (negb (forallb Py.truthy [get_source (objects st !!! o);
                                     get_source (objects st !!! n)])
            || bool_decide (get_source (objects st !!! o)
                            = get_source (objects st !!! n))) eqn:Hfilter.
  - destruct (process_pair_filtered c o n cgs st Hfilter) as [extra ->]. by eexists.
  - apply filter_passes in Hfilter as (a & b & Ho & Hn & Ha & Hb & Hab).
    rewrite (process_pair_built c o n cgs st a b) by done. simpl.
    destruct (build_from_files _ _ _ _) as [cg|e]; [|by eexists].
    destruct (_ <=? _)%Z; by eexists.
Qed.

(** An invariant of the batch and of what the process has put out (builder
    calls and files) that every pair keeps is kept by a modification,
    with the batch as it was if the modification raises. *)
Lemma process_mod_invariant (Inv : list ChangeGraph → state → Prop) (c : commit) :
  (∀ cgs st st', same_output st st' → Inv cgs st → Inv cgs st') →
  (∀ pair cgs st, Inv cgs st →
     Inv (match (GitAnalyzer.process_pair c pair cgs st).1 with
          | Ret cgs' => cgs' | Raise _ => cgs end)
         (GitAnalyzer.process_pair c pair cgs st).2) →
  ∀ modif cgs st, Inv cgs st →
    match GitAnalyzer.process_mod c modif cgs st with
    | (Ret cgs', st') => Inv cgs' st'
    | (Raise _, st') => Inv cgs st'
    end.
Proof.
  intros Hframe Hpair modif cgs st Hinv. unfold GitAnalyzer.process_mod.
  destruct (negb (bool_decide (m_type modif = MODIFY))); [done|].
  destruct (old_path modif) as [old_p|]; [|done].
  destruct (new_path modif) as [new_p|]; [|done].
  destruct (negb _); [done|]. unfold mbind at 1.
  destruct (_extract_methods_spec old_p (old_src modif) st)
    as ([olds|e1] & h1 & extra1 & ->);
    [|by eapply Hframe; [|exact Hinv]].
  unfold mbind at 1.
  match goal with |- context [GitAnalyzer._extract_methods new_p _ ?st1] =>
    destruct (_extract_methods_spec new_p (new_src modif) st1)
      as ([news|e2] & h2 & extra2 & ->) end;
    [|by eapply Hframe; [|exact Hinv]].
  unfold mbind at 1, get_heap. cbn [objects].
  match goal with |- context [for_each _ ?m cgs ?st2] =>
    pose proof (for_each_invariant Inv (λ _, False) (GitAnalyzer.process_pair c) m) as Hloop;
    specialize (Hloop) with (acc := cgs) (st := st2) end.
  simpl in Hloop.
  match type of Hloop with ?P → ?Q → _ =>
    assert (HP : P); [|assert (HQ : Q); [|specialize (Hloop HP HQ)]] end.
  - intros pair acc st0 _ Hacc. specialize (Hpair pair acc st0 Hacc).
    destruct (process_pair_total c pair acc st0) as [acc' Htot].
    destruct (GitAnalyzer.process_pair c pair acc st0) as [[acc0|e] st'];
      simpl in *; [done | congruence].
  - by eapply Hframe; [|exact Hinv].
  - destruct (for_each _ _ _ _) as [[acc'|e] st']; [done | by destruct Hloop].
Qed.

(** What one pair does to the batch, the builder calls and the files. *)
Lemma process_pair_step (c : commit) (o n : ref) (cgs : list ChangeGraph)
    (st : state) :
  let r := GitAnalyzer.process_pair c (o, n) cgs st in
  (r.1 = Ret cgs ∧ same_output st r.2)
  ∨ ∃ a b answer,
      get_source (objects st !!! o) = Some a
      ∧ get_source (objects st !!! n) = Some b
      ∧ builder_calls r.2
        = builder_calls st
          ++ [mkCall a b (mkRepoInfo (r_name (c_repo c)) (r_path (c_repo c))
                                     (r_url (c_repo c)) (c_hash c) o n) answer]
      ∧ good_call (mkCall a b (mkRepoInfo (r_name (c_repo c)) (r_path (c_repo c))
                                          (r_url (c_repo c)) (c_hash c) o n) answer)
      ∧ match answer with
        | Raise _ => r.1 = Ret cgs ∧ stored r.2 = stored st
        | Ret cg =>
            if (STORE_INTERVAL <=? Z.of_nat (length (cgs ++ [cg])))%Z
            then r.1 = Ret [] ∧ ∃ f, stored r.2 = stored st ++ [(f, cgs ++ [cg])]
            else r.1 = Ret (cgs ++ [cg]) ∧ stored r.2 = stored st
        end.
Proof.
  intros r. subst r.
  destruct (negb (forallb Py.truthy [get_source (objects st !!! o);
                                     get_source (objects st !!! n)])
            || bool_decide (get_source (objects st !!! o)
                            = get_source (objects st !!! n))) eqn:Hfilter.
  - left. destruct (process_pair_filtered c o n cgs st Hfilter) as [extra ->].
    by split.
  - right. apply filter_passes in Hfilter as (a & b & Ho & Hn & Ha & Hb & Hab).
    rewrite (process_pair_built c o n cgs st a b) by done.
    unfold call_builder. cbn zeta. cbn [snd].
    exists a, b, (build_from_files a b
                    (mkRepoInfo (r_name (c_repo c)) (r_path (c_repo c))
                                (r_url (c_repo c)) (c_hash c) o n) (objects st)).
    split; [done|]. split; [done|].
    assert (Hgood : ∀ info answer, good_call (mkCall a b info answer)).
    { intros info answer. by split_and!. }
    destruct (build_from_files a b _ (objects st)) as [cg|e].
    + destruct (STORE_INTERVAL <=? _)%Z; [|by split_and!].
      match goal with |- context [GitAnalyzer._store_change_graphs ?g ?st1] =>
        destruct (_store_change_graphs_spec g st1) as [extra ->] end.
      simpl. split_and!; [done|done|done|by eexists].
    + by split_and!.
Qed.

Lemma task_unfold (c : commit) (st : state) :
  ∃ st0, same_output st st0 ∧ objects st0 = objects st
    ∧ extractions st0 = extractions st
    ∧ GitAnalyzer._get_commit_change_graphs c st
      = match for_each (GitAnalyzer.process_mod c) (c_modifications c) [] st0 with
        | (Ret [], st1) => (Ret (), st1)
        | (Ret (cg :: cgs), st1) =>
            GitAnalyzer._store_change_graphs (cg :: cgs) st1
        | (Raise e, st1) => (Raise e, st1)
        end.
Proof.
  unfold GitAnalyzer._get_commit_change_graphs, mbind at 1, logger_log.
  exists (logger_log INFO
            ("Looking at commit #" +:+ c_hash c +:+ ", msg: " +:+ GitAnalyzer.quote
             +:+ GitAnalyzer.replace_newlines (c_msg c) +:+ GitAnalyzer.quote) st).2.
  split_and!; cycle 3.
  - unfold mbind, logger_log. cbn [snd]. destruct (for_each _ _ _ _) as [[[|cg cgs]|e] st1]; reflexivity.
  - done.
  - done.
  - done.
Qed.

(** ** Builder calls *)

Lemma calls_extend_refl (st st' : state) :
  builder_calls st' = builder_calls st → calls_extend st st'.
Proof. intros Hcalls. exists []. by rewrite app_nil_r. Qed.

Lemma calls_extend_trans (st1 st2 st3 : state) :
  calls_extend st1 st2 → calls_extend st2 st3 → calls_extend st1 st3.
Proof.
  intros (new1 & H1 & Hg1) (new2 & H2 & Hg2). exists (new1 ++ new2).
  rewrite H2, H1, app_assoc. split; [done | by apply Forall_app].
Qed.

Lemma process_pair_calls (c : commit) (pair : ref * ref) (cgs : list ChangeGraph)
    (st : state) :
  calls_extend st (GitAnalyzer.process_pair c pair cgs st).2.
Proof.
  destruct pair as [o n].
  destruct (process_pair_step c o n cgs st)
    as [[_ Hsame] | (a & b & answer & _ & _ & Hcalls & Hgood & _)].
  - apply calls_extend_refl, Hsame.
  - eexists. split; [exact Hcalls|]. by constructor.
Qed.

Lemma task_calls (c : commit) (st : state) :
  calls_extend st (GitAnalyzer._get_commit_change_graphs c st).2.
Proof.
  destruct (task_unfold c st) as (st0 & Hsame & _ & _ & ->).
  pose proof (for_each_invariant (λ _ st', calls_extend st st')
                (λ st', calls_extend st st')
                (GitAnalyzer.process_mod c) (c_modifications c)) as Hloop.
  specialize (Hloop) with (acc := []) (st := st0).
  match type of Hloop with ?P → ?Q → _ =>
    assert (HP : P); [|assert (HQ : Q); [|specialize (Hloop HP HQ)]] end.
  - intros modif acc st1 _ Hacc.
    pose proof (process_mod_invariant (λ _ st', calls_extend st st') c) as Hmod.
    specialize (Hmod) with (modif := modif) (cgs := acc) (st := st1).
    match type of Hmod with ?P → ?Q → ?R → _ =>
      assert (HP : P); [|assert (HQ : Q); [|specialize (Hmod HP HQ Hacc)]] end.
    + intros _ sta stb Hab Ha. eapply calls_extend_trans; [exact Ha|].
      apply calls_extend_refl, Hab.
    + intros pair cgs sta Ha. eapply calls_extend_trans; [exact Ha|].
      apply process_pair_calls.
    + destruct (GitAnalyzer.process_mod c modif acc st1) as [[acc'|e] st'];
        [done | by subst].
  - apply calls_extend_refl, Hsame.
  - destruct (for_each _ _ _ _) as [[[|cg cgs]|e] st1]; [done| |done].
    destruct (_store_change_graphs_spec (cg :: cgs) st1) as [extra ->].
    eapply calls_extend_trans; [exact Hloop|]. by apply calls_extend_refl.
Qed.

Lemma worker_calls (tasks : list commit) (st : state) :
  calls_extend st (GitAnalyzer.worker tasks st).
Proof.
  revert st. induction tasks as [|c tasks IH]; intros st; simpl.
  - by apply calls_extend_refl.
  - eapply calls_extend_trans; [apply task_calls | apply IH].
Qed.

(** ** Batches *)

Lemma length_concat_full {A} (N : nat) (batches : list (list A)) :
  Forall (λ b, length b = N) batches →
  length (concat batches) = length batches * N.
Proof.
  induction 1 as [|b batches Hb _ IH]; simpl; [done|].
  rewrite length_app, IH, Hb. lia.
Qed.

(** Full batches followed by what is left of the last one. *)
Lemma batches_count {A} (N : nat) (batches : list (list A)) (rest : list A) :
  1 ≤ N →
  Forall (λ b, length b = N) batches →
  length rest < N →
  let final := batches ++ match rest with [] => [] | _ :: _ => [rest] end in
  let K := length (concat final) in
  length final = ceil_div K N
  ∧ ∀ b, last final = Some b → length b = if K mod N =? 0 then N else K mod N.
Proof.
  intros HN Hfull Hrest final K.
  assert (HK : K = length batches * N + length rest).
  { subst K final. rewrite concat_app, length_app, (length_concat_full N) by done.
    destruct rest; simpl; [done | by rewrite app_nil_r]. }
  destruct rest as [|x rest]; simpl in HK.
  - subst final. rewrite app_nil_r. rewrite Nat.add_0_r in HK. split.
    + unfold ceil_div. apply (Nat.div_unique _ _ _ (N - 1)); lia.
    + intros b Hb%last_Some_elem_of.
      rewrite <- (Nat.mod_unique K N (length batches) 0) by lia. simpl.
      by apply (proj1 (Forall_forall _ _) Hfull).
  - simpl in Hrest. subst final. rewrite length_app. simpl. split.
    + unfold ceil_div. apply (Nat.div_unique _ _ _ (length rest)); lia.
    + intros b Hb. rewrite last_snoc in Hb. injection Hb as <-.
      rewrite <- (Nat.mod_unique K N (length batches) (S (length rest))) by lia.
      done.
Qed.

Section Batches.
Variables (N : nat) (c : commit) (st0 : state).
Hypothesis interval : STORE_INTERVAL = Z.of_nat N.

Lemma batch_inv_frame (cgs : list ChangeGraph) (st st' : state) :
  same_output st st' → batch_inv N st0 cgs st → batch_inv N st0 cgs st'.
Proof.
  intros [Hcalls Hstored] (files & calls & ? & ? & ? & ? & ?).
  exists files, calls. rewrite Hcalls, Hstored. by split_and!.
Qed.

Lemma batch_inv_pair (pair : ref * ref) (cgs : list ChangeGraph) (st : state) :
  batch_inv N st0 cgs st →
  batch_inv N st0
    (match (GitAnalyzer.process_pair c pair cgs st).1 with
     | Ret cgs' => cgs' | Raise _ => cgs end)
    (GitAnalyzer.process_pair c pair cgs st).2.
Proof.
  intros Hinv. destruct pair as [o n].
  destruct (process_pair_step c o n cgs st)
    as [[-> Hsame] | (a & b & answer & _ & _ & Hcalls & _ & Hanswer)].
  { by eapply batch_inv_frame. }
  destruct Hinv as (files & calls & Hfiles & Hprev & Hfull & Hlen & Hgraphs).
  match type of Hcalls with context [mkCall a b ?i _] => set (info := i) in * end.
  destruct answer as [cg|e].
  - rewrite interval in Hanswer.
    destruct (Z.leb_spec (Z.of_nat N) (Z.of_nat (length (cgs ++ [cg]))))
      as [Hflush|Hkeep].
    + destruct Hanswer as [-> [f Hstored]].
      exists (files ++ [(f, cgs ++ [cg])]), (calls ++ [mkCall a b info (Ret cg)]).
      rewrite Hstored, Hcalls, Hfiles, Hprev, <- !app_assoc.
      rewrite length_app in Hflush. simpl in Hflush.
      split_and!; [done|done| |simpl; lia|].
      * apply Forall_app. split; [done|]. constructor; [|done].
        simpl. rewrite length_app. simpl. lia.
      * unfold graphs_built in *. rewrite omap_app, <- Hgraphs. simpl.
        rewrite fmap_app, concat_app. simpl.
        by rewrite !app_nil_r, app_assoc.
    + destruct Hanswer as [-> Hstored].
      exists files, (calls ++ [mkCall a b info (Ret cg)]).
      rewrite Hstored, Hcalls, Hfiles, Hprev, <- !app_assoc.
      rewrite length_app in Hkeep |- *. simpl in *.
      split_and!; [done|done|done|lia|].
      unfold graphs_built in *. rewrite omap_app, <- Hgraphs. simpl.
      by rewrite app_assoc.
  - destruct Hanswer as [-> Hstored].
    exists files, (calls ++ [mkCall a b info (Raise e)]).
    rewrite Hstored, Hcalls, Hfiles, Hprev, <- !app_assoc.
    split_and!; [done|done|done|done|].
    unfold graphs_built in *. rewrite omap_app, <- Hgraphs. simpl.
    by rewrite app_nil_r.
Qed.

Lemma task_batches (st' : state) :
  1 ≤ N →
  GitAnalyzer._get_commit_change_graphs c st0 = (Ret (), st') →
  ∃ files calls full rest,
    stored st' = stored st0 ++ files
    ∧ builder_calls st' = builder_calls st0 ++ calls
    ∧ files.*2 = full ++ match rest with [] => [] | _ :: _ => [rest] end
    ∧ Forall (λ b, length b = N) full
    ∧ length rest < N
    ∧ concat files.*2 = graphs_built calls.
Proof.
  intros HN. destruct (task_unfold c st0) as (st_log & Hsame & _ & _ & ->).
  pose proof (for_each_invariant (batch_inv N st0) (λ _, True)
                (GitAnalyzer.process_mod c) (c_modifications c)) as Hloop.
  specialize (Hloop) with (acc := []) (st := st_log).
  match type of Hloop with ?P → ?Q → _ =>
    assert (HP : P); [|assert (HQ : Q); [|specialize (Hloop HP HQ)]] end.
  - intros modif acc st1 _ Hacc.
    pose proof (process_mod_invariant (batch_inv N st0) c
                  batch_inv_frame batch_inv_pair modif acc st1 Hacc) as Hmod.
    by destruct (GitAnalyzer.process_mod c modif acc st1) as [[acc'|e] st2].
  - apply (batch_inv_frame [] st0 st_log Hsame).
    exists [], []. rewrite !app_nil_r. simpl. split_and!; [done|done|done|lia|done].
  - clear HP HQ.
    destruct (for_each _ _ _ _) as [[[|cg cgs]|e] st1]; [| |done].
    + intros [= <-].
      destruct Hloop as (files & calls & Hfiles & Hcalls & Hfull & Hlen & Hgraphs).
      exists files, calls, files.*2, []. rewrite !app_nil_r in *.
      split_and!; [done|done|done| |done|done].
      by apply Forall_fmap.
    + destruct (_store_change_graphs_spec (cg :: cgs) st1) as [extra ->].
      intros [= <-]. simpl.
      destruct Hloop as (files & calls & Hfiles & Hcalls & Hfull & Hlen & Hgraphs).
      eexists (files ++ [_]), calls, files.*2, (cg :: cgs).
      rewrite Hfiles, <- app_assoc.
      split_and!; [done|done| | |done|].
      * by rewrite fmap_app.
      * by apply Forall_fmap.
      * rewrite fmap_app, concat_app. simpl. by rewrite app_nil_r.
Qed.
End Batches.

(** ** Termination of a task *)

End Pipeline.

(** ** The diagnostic of a builder failure *)







(** ** Skipped modifications and parse failures *)

Lemma ends_py_true (p : option string) :
  ends_py p = true → ∃ s, p = Some s ∧ Py.endswith s ".py" = true.
Proof. destruct p as [s|]; [by eexists | done]. Qed.

Lemma process_mod_skipped `{Collaborators} (c : commit) (modif : modification)
    (cgs : list ChangeGraph) (st : state) :
  m_type modif ≠ MODIFY ∨ ends_py (old_path modif) = false
  ∨ ends_py (new_path modif) = false →
  (GitAnalyzer.process_mod c modif cgs st).2 = st
  ∧ ((GitAnalyzer.process_mod c modif cgs st).1 = Ret cgs
     ∨ (GitAnalyzer.process_mod c modif cgs st).1 = Raise AttributeError).
Proof.
  intros Hunfit. unfold GitAnalyzer.process_mod.
  destruct (bool_decide_reflect (m_type modif = MODIFY)) as [Hmodify|_]; simpl;
    [|by auto].
  destruct Hunfit as [Hkind | Hpaths]; [done|].
  destruct (old_path modif) as [old_p|], (new_path modif) as [new_p|]; simpl in *;
    try by auto.
  destruct Hpaths as [-> | ->]; simpl; rewrite ?andb_false_r; by auto.
Qed.

Lemma parse_fails_stack `{Collaborators} (source : option string) :
  parse_fails source → stack_suffices source = true.
Proof.
  unfold parse_fails, stack_suffices. destruct source as [text|]; [|done].
  by intros [e ->].
Qed.

(** A modification one side of which does not parse: no pair is matched;
    it returns the batch as it was, unless the visit of the other side
    raises. *)
Lemma process_mod_parse_failure `{Collaborators} (c : commit)
    (modif : modification) (cgs : list ChangeGraph) (st : state) :
  m_type modif = MODIFY →
  ends_py (old_path modif) = true → ends_py (new_path modif) = true →
  parse_fails (old_src modif) ∨ parse_fails (new_src modif) →
  ∃ st',
    GitAnalyzer.process_mod c modif cgs st
    = (if stack_suffices (old_src modif) && stack_suffices (new_src modif)
       then Ret cgs else Raise RecursionError, st')
    ∧ same_output st st'.
Proof.
  intros Hmodify (old_p & Hold & Hold_py)%ends_py_true
    (new_p & Hnew & Hnew_py)%ends_py_true Hfails.
  unfold GitAnalyzer.process_mod.
  rewrite Hmodify, Hold, Hnew, Hold_py, Hnew_py. simpl.
  destruct Hfails as [Hfails | Hfails].
  - rewrite (parse_fails_stack _ Hfails). simpl.
    unfold mbind at 1. rewrite _extract_methods_failure by done.
    unfold mbind at 1.
    destruct (stack_suffices (new_src modif)) eqn:Hstack.
    + match goal with |- context [GitAnalyzer._extract_methods new_p _ ?s1] =>
        destruct (_extract_methods_returns new_p (new_src modif) s1 Hstack)
          as (news & h2 & extra2 & ->) end.
      unfold mbind, get_heap. simpl. by eexists.
    + rewrite _extract_methods_overflow by done. by eexists.
  - rewrite (parse_fails_stack _ Hfails), andb_true_r.
    unfold mbind at 1.
    destruct (stack_suffices (old_src modif)) eqn:Hstack.
    + destruct (_extract_methods_returns old_p (old_src modif) st Hstack)
        as (olds & h1 & extra1 & ->).
      unfold mbind at 1. rewrite _extract_methods_failure by done.
      unfold mbind, get_heap. cbn [objects].
      rewrite mapping_no_new. simpl. by eexists.
    + rewrite _extract_methods_overflow by done. by eexists.
Qed.

(** ** The course of a task

    What a task asks of the builder, what it logs as errors and what it
    stores, traced through its two loops. *)

Lemma prefix_of_lookups {A} (l k : list A) :
  length l ≤ length k → (∀ i, i < length l → k !! i = l !! i) → l `prefix_of` k.
Proof.
  intros Hlen Hsame. exists (drop (length l) k).
  rewrite <- (take_drop (length l) k) at 1. f_equal.
  apply list_eq. intros i. destruct (decide (i < length l)) as [Hi|Hi].
  - by rewrite lookup_take_lt, Hsame.
  - rewrite lookup_take_ge, (lookup_ge_None_2 l) by lia. done.
Qed.


Lemma visit_Module_extracted (path source : string) (body : list stmt) (h : heap) :
  extracted h (ASTMethodExtractor.visit_Module path source body h).1
            (ASTMethodExtractor.visit_Module path source body h).2
            (flat_map (class_paths []) body).
Proof.
  apply visit_body_extracted, Forall_forall. intros st _ h0.
  apply visit_extracted.
Qed.






Lemma get_source_of_info `{Collaborators} (method : ref) (st : state) :
  ∃ extra,
    GitAnalyzer.get_source_of method st
    = (Ret (get_source (objects st !!! method)),
       mkState (objects st) (logged st ++ extra) (extractions st)
               (builder_calls st) (stored st) (uuid_calls st))
    ∧ Forall (λ e, level e = INFO) extra.
Proof.
  unfold GitAnalyzer.get_source_of, get_source, mbind, get_heap, mret, logger_log.
  destruct (get_source_segment _ _) as [segment|e]; simpl.
  - exists []. rewrite app_nil_r. split; [by destruct st | done].
  - eexists [_]. split; [reflexivity|]. by constructor.
Qed.

Section Course.
Context `{Collaborators}.

Lemma extraction_grows (path : string) (source : option string) (h : heap)
    (refs : list ref) (h' : heap) :
  extraction path source h = Ret (refs, h') →
  h `prefix_of` h' ∧ Forall (λ r, r < length h') refs.
Proof.
  unfold extraction. destruct source as [text|]; [|by intros [= <- <-]].
  destruct (ast_parse text) as [body|e]; [|by intros [= <- <-]].
  destruct (visit_overflows body); [done|]. intros [= Hvisit].
  pose proof (visit_Module_extracted path text body h)
    as (Hlen & Hold & _ & Hrange & _).
  rewrite Hvisit in *. simpl in *. split.
  - by apply prefix_of_lookups.
  - apply Forall_forall. intros r Hr. apply Hrange in Hr. lia.
Qed.










End Course.

(* ================================================================= *)
(** * The properties of the pipeline *)

(** C1: a method that [visit_Module] returns carries, as its qualified
    name, the names of the classes around its [def], outermost first,
    and its own name, joined by dots, whatever the depth of the nesting;
    the method [run] of class [Inner] of class [Outer] is called
    [Outer.Inner.run]. *)
Theorem C1_qualified_names (path source : string) (body : list stmt) (h : heap) :
  (let '(methods, h') := ASTMethodExtractor.visit_Module path source body h in
   attributes_of h' methods
   = map (λ p, Some (dot_join (p.1 ++ [p.2]), p.2))
         (flat_map (class_paths []) body))
  ∧ (let '(methods, h') :=
       ASTMethodExtractor.visit_Module "a.py" Examples.nested_src
         Examples.nested_ast [] in
     attributes_of h' methods = [Some ("Outer.Inner.run", "run")]).
Proof.
  split; [apply visit_Module_attributes | reflexivity].
Qed.

(** C2, as the code has it: a commit task that returns, run with a flush
    threshold [N] of at least one, writes the graphs the builder returned
    during the task, in order, into [⌈K/N⌉] files, [K] being their number;
    the last file holds [K mod N] graphs, or [N] when [K mod N = 0]. *)
Theorem C2_task_batches `{Collaborators} (N : nat) (c : commit) (st : state) :
  1 ≤ N →
  STORE_INTERVAL = Z.of_nat N →
  (GitAnalyzer._get_commit_change_graphs c st).1 = Ret () →
  let st' := (GitAnalyzer._get_commit_change_graphs c st).2 in
  let artifacts := GitAnalyzer.artifacts_since st st' in
  let K := length (graphs_built (GitAnalyzer.calls_since st st')) in
  concat artifacts = graphs_built (GitAnalyzer.calls_since st st')
  ∧ length artifacts = ceil_div K N
  ∧ ∀ b, last artifacts = Some b → length b = if K mod N =? 0 then N else K mod N.
Proof.
  intros HN Hinterval Hret st'. subst st'.
  destruct (GitAnalyzer._get_commit_change_graphs c st) as [[[]|e] st'] eqn:Htask;
    [|done]. clear Hret. simpl.
  destruct (task_batches N c st Hinterval st' HN Htask)
    as (files & calls & full & rest & Hstored & Hcalls & Hfiles & Hfull & Hrest
        & Hgraphs).
  unfold GitAnalyzer.artifacts_since, GitAnalyzer.calls_since.
  rewrite Hstored, Hcalls, !drop_app_length, <- Hgraphs.
  split; [done|]. rewrite Hfiles. by apply batches_count.
Qed.

(** C3: whatever tasks a worker runs, every call of the builder is made
    with two non-empty texts that differ; a matched pair either makes no
    call, or one call with the texts [get_source] extracted for its two
    methods, which are then non-empty and differ; a pair whose two
    extracted texts are the same leaves the batch, the builder calls and
    the files as they were. *)
Theorem C3_builder_filter `{Collaborators} :
  (∀ tasks st,
     Forall good_call (GitAnalyzer.calls_since st (GitAnalyzer.worker tasks st)))
  ∧ (∀ c o n cgs st,
       builder_calls (GitAnalyzer.process_pair c (o, n) cgs st).2 = builder_calls st
       ∨ ∃ a b k,
           get_source (objects st !!! o) = Some a
           ∧ get_source (objects st !!! n) = Some b
           ∧ a ≠ "" ∧ b ≠ "" ∧ a ≠ b
           ∧ call_old_text k = a ∧ call_new_text k = b
           ∧ builder_calls (GitAnalyzer.process_pair c (o, n) cgs st).2
             = builder_calls st ++ [k])
  ∧ (∀ c o n cgs st,
       get_source (objects st !!! o) = get_source (objects st !!! n) →
       (GitAnalyzer.process_pair c (o, n) cgs st).1 = Ret cgs
       ∧ builder_calls (GitAnalyzer.process_pair c (o, n) cgs st).2
         = builder_calls st
       ∧ stored (GitAnalyzer.process_pair c (o, n) cgs st).2 = stored st).
Proof.
  split; [|split].
  - intros tasks st. destruct (worker_calls tasks st) as (new & Hnew & Hgood).
    unfold GitAnalyzer.calls_since. by rewrite Hnew, drop_app_length.
  - intros c o n cgs st.
    destruct (process_pair_step c o n cgs st)
      as [[_ [Hcalls _]] | (a & b & answer & Ho & Hn & Hcalls & Hgood & _)].
    + by left.
    + right. destruct Hgood as (Ha & Hb & Hab). simpl in Ha, Hb, Hab.
      eexists a, b, _. split_and!; [done|done|done|done|done| | |exact Hcalls];
        reflexivity.
  - intros c o n cgs st Hsame.
    destruct (process_pair_filtered c o n cgs st) as [extra ->]; [|done].
    rewrite Hsame, bool_decide_eq_true_2 by done. apply orb_true_r.
Qed.


(** C5: a commit without parents gets no record, so no task: the records
    built from a history are those built from the history without it, and
    the records are, in order, those of the commits that have a parent. *)
Theorem C5_root_commits_excluded (repo : repository)
    (before after : list pd_commit) (c : pd_commit) :
  parents c = [] →
  GitAnalyzer._extract_commits repo (before ++ c :: after)
  = GitAnalyzer._extract_commits repo (before ++ after)
  ∧ Forall2 (λ record c', c_hash record = pd_hash c' ∧ c_msg record = pd_msg c'
                          ∧ c_repo record = repo ∧ parents c' ≠ [])
            (GitAnalyzer._extract_commits repo (before ++ c :: after))
            (List.filter has_parents (before ++ after)).
Proof.
  intros Hroot. rewrite _extract_commits_skip by done.
  split; [done | apply _extract_commits_records].
Qed.

(** C6: a modification that is not of kind [MODIFY], or one of whose
    paths is missing or does not end with [.py], leaves the state of the
    worker as it was: [_extract_methods] is not called (the record of
    extractions is unchanged) and no [Method] is created (the heap is
    unchanged); the batch is unchanged, unless a missing path raises
    [AttributeError]. *)
Theorem C6_unfit_modifications_skipped `{Collaborators} (c : commit)
    (modif : modification) (cgs : list ChangeGraph) (st : state) :
  m_type modif ≠ MODIFY ∨ ends_py (old_path modif) = false
  ∨ ends_py (new_path modif) = false →
  let r := GitAnalyzer.process_mod c modif cgs st in
  extractions r.2 = extractions st
  ∧ objects r.2 = objects st
  ∧ r.2 = st
  ∧ (r.1 = Ret cgs ∨ r.1 = Raise AttributeError).
Proof.
  intros Hunfit r. subst r.
  destruct (process_mod_skipped c modif cgs st Hunfit) as [-> Hresult].
  by split_and!.
Qed.

(** C7: on a text that does not parse, [_extract_methods] returns the
    empty list and raises nothing; it logs one record, at level [INFO],
    and creates no object.  A [.py] modification one side of which does
    not parse matches no pair: the builder calls and the files stay as
    they were, and it returns the batch as it was, provided the visit of
    the other side returns; the only thing it can raise is the
    [RecursionError] of that visit, and the side that does not parse is
    not visited. *)
Theorem C7_parse_failure_contained `{Collaborators} (path : string)
    (source : option string) (st : state) :
  parse_fails source →
  GitAnalyzer._extract_methods path source st
  = (Ret [],
     mkState (objects st)
             (logged st ++ [mkLog INFO "Unable to compile src and extract methods"])
             (extractions st ++ [(path, source)])
             (builder_calls st) (stored st) (uuid_calls st))
  ∧ stack_suffices source = true
  ∧ ∀ c modif cgs,
      m_type modif = MODIFY →
      ends_py (old_path modif) = true → ends_py (new_path modif) = true →
      source = old_src modif ∨ source = new_src modif →
      ∃ st',
        GitAnalyzer.process_mod c modif cgs st
        = (if stack_suffices (old_src modif) && stack_suffices (new_src modif)
           then Ret cgs else Raise RecursionError, st')
        ∧ same_output st st'.
Proof.
  intros Hfails. split; [by apply _extract_methods_failure|].
  split; [by apply parse_fails_stack|].
  intros c modif cgs Hmodify Hold Hnew Hside.
  apply process_mod_parse_failure; [done|done|done|].
  destruct Hside as [<- | <-]; by auto.
Qed.

(** C8, where the code departs from it: [Method] keeps the text of the
    file stripped, and [get_source] applies the positions of the node,
    which [ast.parse] counted in the text as it was, to the stripped
    text.  In a file that starts with an empty line the segment of [f]
    is the line of [g], and the builder is called for [f] with the two
    versions of [g]. *)
Theorem C8_segment_of_stripped_text :
  let m := Method_init "a.py" "f" (Examples.def_at "f" 2) Examples.blank_v1 in
  let st := (@GitAnalyzer._get_commit_change_graphs Examples.W300
               Examples.commit_blank (@initial Examples.W300)).2 in
  get_source_segment Examples.blank_v1 (ast m) = Ret (Some "def f(): return 1")
  ∧ get_source m = Some "def g(): return 2"
  ∧ map (λ k, (full_name (objects st !!! old_method (call_info k)),
               call_old_text k, call_new_text k))
        (builder_calls st)
    = [("f", "def g(): return 2", "def g(): return 3")].
Proof. by vm_compute. Qed.

(** C9: an old method in the list of old methods is mapped to the last
    of the new methods that have its qualified name. *)
Theorem C9_last_seen_wins (h : heap) (old_methods before after : list ref)
    (old n : ref) :
  old ∈ old_methods →
  full_name (h !!! old) = full_name (h !!! n) →
  Forall (λ n', full_name (h !!! n') ≠ full_name (h !!! old)) after →
  dict_get (GitAnalyzer._get_methods_mapping h old_methods (before ++ n :: after))
           old
  = Some n.
Proof. apply mapping_last_wins. Qed.

(** C10: the mapping is keyed by object: two different old methods with
    the same qualified name, which a new method has too, are two entries
    of the mapping, both with the last new method of that name. *)
Theorem C10_keyed_by_instance (h : heap) (old_methods before after : list ref)
    (o1 o2 n : ref) :
  o1 ≠ o2 →
  o1 ∈ old_methods → o2 ∈ old_methods →
  full_name (h !!! o1) = full_name (h !!! n) →
  full_name (h !!! o2) = full_name (h !!! n) →
  Forall (λ n', full_name (h !!! n') ≠ full_name (h !!! n)) after →
  let mapping :=
    GitAnalyzer._get_methods_mapping h old_methods (before ++ n :: after) in
  dict_get mapping o1 = Some n ∧ dict_get mapping o2 = Some n
  ∧ ∃ i j, i ≠ j ∧ mapping !! i = Some (o1, n) ∧ mapping !! j = Some (o2, n).
Proof.
  intros Hne Hin1 Hin2 Hname1 Hname2 Hafter mapping.
  assert (H1 : dict_get mapping o1 = Some n).
  { apply mapping_last_wins; [done|done|]. by rewrite Hname1. }
  assert (H2 : dict_get mapping o2 = Some n).
  { apply mapping_last_wins; [done|done|]. by rewrite Hname2. }
  split_and!; [done|done|].
  destruct (list_elem_of_lookup_1 _ _ (dict_get_elem_of _ _ _ H1)) as [i Hi].
  destruct (list_elem_of_lookup_1 _ _ (dict_get_elem_of _ _ _ H2)) as [j Hj].
  exists i, j. split_and!; [|done|done].
  intros ->. rewrite Hi in Hj. congruence.
Qed.

(* ================================================================= *)
(** * The properties at concrete inputs *)

(** C2: the task on [commit_three] with threshold 2: the builder returns
    a graph for [f] and for [h], and one file of two graphs is written. *)
Lemma C2_task_batches_witness :
  let st := @initial Examples.W2 in
  let st' := (GitAnalyzer._get_commit_change_graphs Examples.commit_three st).2 in
  let artifacts := GitAnalyzer.artifacts_since st st' in
  let K := length (graphs_built (GitAnalyzer.calls_since st st')) in
  concat artifacts = graphs_built (GitAnalyzer.calls_since st st')
  ∧ length artifacts = ceil_div K 2
  ∧ ∀ b, last artifacts = Some b → length b = if K mod 2 =? 0 then 2 else K mod 2.
Proof.
  apply (@C2_task_batches Examples.W2 2 Examples.commit_three (@initial Examples.W2)).
  - lia.
  - reflexivity.
  - vm_compute. reflexivity.
Defined.

(** C2 as it is stated fails over the life of a worker: with threshold
    300, a worker that runs two tasks of one surviving pair each has had
    two graphs built and has written two files, not [⌈2/300⌉ = 1]. *)
Lemma C2_lifetime_counterexample :
  let st0 := @initial Examples.W300 in
  let st := GitAnalyzer.worker [Examples.commit_f; Examples.commit_f] st0 in
  let K := length (graphs_built (GitAnalyzer.calls_since st0 st)) in
  K = 2
  ∧ length (GitAnalyzer.artifacts_since st0 st) = 2
  ∧ length (GitAnalyzer.artifacts_since st0 st) ≠ ceil_div K 300.
Proof. vm_compute. split_and!; [done | done | by intros [=]]. Qed.

(** C3: both sides of the pair are [def f(): return 1]. *)
Lemma C3_builder_filter_witness :
  let st :=
    (@GitAnalyzer._extract_methods Examples.W2 "a.py" (Some "def f(): return 1")
       (@GitAnalyzer._extract_methods Examples.W2 "a.py" (Some "def f(): return 1")
          (@initial Examples.W2)).2).2 in
  (GitAnalyzer.process_pair Examples.commit_f (0, 1) [] st).1 = Ret []
  ∧ builder_calls (GitAnalyzer.process_pair Examples.commit_f (0, 1) [] st).2
    = builder_calls st
  ∧ stored (GitAnalyzer.process_pair Examples.commit_f (0, 1) [] st).2 = stored st.
Proof.
  intros st.
  apply (proj2 (proj2 (@C3_builder_filter Examples.W2)) Examples.commit_f 0 1 [] st).
  vm_compute. reflexivity.
Defined.


(** C5: the history of [Examples.history] starts with a root commit. *)
Lemma C5_root_commits_excluded_witness :
  let root := mkPdCommit "000001" "initial" []
                [mkPdMod ADD None None (Some "def f(): return 1") (Some "a.py")] in
  let rest := tail Examples.history in
  GitAnalyzer._extract_commits Examples.repo ([] ++ root :: rest)
  = GitAnalyzer._extract_commits Examples.repo ([] ++ rest)
  ∧ Forall2 (λ record c', c_hash record = pd_hash c' ∧ c_msg record = pd_msg c'
                          ∧ c_repo record = Examples.repo ∧ parents c' ≠ [])
            (GitAnalyzer._extract_commits Examples.repo ([] ++ root :: rest))
            (List.filter has_parents ([] ++ rest)).
Proof.
  intros root rest.
  apply (C5_root_commits_excluded Examples.repo [] rest root).
  reflexivity.
Defined.

(** C6: an added file. *)
Lemma C6_unfit_modifications_skipped_witness :
  let st := @initial Examples.W2 in
  let r := GitAnalyzer.process_mod Examples.commit_f Examples.added [] st in
  extractions r.2 = extractions st
  ∧ objects r.2 = objects st
  ∧ r.2 = st
  ∧ (r.1 = Ret [] ∨ r.1 = Raise AttributeError).
Proof.
  intros st.
  apply (@C6_unfit_modifications_skipped Examples.W2 Examples.commit_f
           Examples.added [] st).
  right. left. reflexivity.
Defined.

(** C7: [def f(: return] does not parse; in [Examples.broken] it is the
    old side, and the new side is a [def] of one line. *)
Lemma C7_parse_failure_contained_witness :
  let st := @initial Examples.W2 in
  let source := Some "def f(: return" in
  GitAnalyzer._extract_methods "a.py" source st
  = (Ret [],
     mkState (objects st)
             (logged st ++ [mkLog INFO "Unable to compile src and extract methods"])
             (extractions st ++ [("a.py", source)])
             (builder_calls st) (stored st) (uuid_calls st))
  ∧ @stack_suffices Examples.W2 source = true
  ∧ ∃ st', GitAnalyzer.process_mod Examples.commit_f Examples.broken [] st
           = (Ret [], st')
           ∧ same_output st st'.
Proof.
  intros st source.
  destruct (@C7_parse_failure_contained Examples.W2 "a.py" source st)
    as (Hempty & Hstack & Hmod).
  { exists SyntaxError. vm_compute. reflexivity. }
  split_and!; [exact Hempty | exact Hstack |].
  apply (Hmod Examples.commit_f Examples.broken []).
  - reflexivity.
  - reflexivity.
  - reflexivity.
  - left. reflexivity.
Defined.

(** C9: one old [f] and two new ones. *)
Lemma C9_last_seen_wins_witness :
  dict_get (GitAnalyzer._get_methods_mapping Examples.namesakes [0] ([1] ++ 2 :: []))
           0
  = Some 2.
Proof.
  apply (C9_last_seen_wins Examples.namesakes [0] [1] [] 0 2).
  - apply list_elem_of_here.
  - reflexivity.
  - apply Forall_nil_2.
Defined.

(** C10: two old [f]s and one new one. *)
Lemma C10_keyed_by_instance_witness :
  let mapping :=
    GitAnalyzer._get_methods_mapping Examples.namesakes [0; 1] ([] ++ 2 :: []) in
  dict_get mapping 0 = Some 2 ∧ dict_get mapping 1 = Some 2
  ∧ ∃ i j, i ≠ j ∧ mapping !! i = Some (0, 2) ∧ mapping !! j = Some (1, 2).
Proof.
  apply (C10_keyed_by_instance Examples.namesakes [0; 1] [] [] 0 1 2).
  - discriminate.
  - apply list_elem_of_here.
  - apply list_elem_of_further, list_elem_of_here.
  - reflexivity.
  - reflexivity.
  - apply Forall_nil_2.
Defined.

(* ================================================================= *)
(** * Further properties of the code *)

(** ** The matcher, in closed form *)

Lemma scan_new_get (h : heap) (new_methods : list ref) (d : dict ref ref)
    (old : ref) :
  dict_get (scan_new h new_methods d old) old
  = match last (namesakes_of h new_methods old) with
    | Some n => Some n
    | None => dict_get d old
    end.
Proof.
  unfold scan_new, namesakes_of. revert d.
  induction new_methods as [|n news IH]; intros d; simpl; [done|].
  rewrite IH. destruct (String.eqb _ _); [|done].
  rewrite last_cons, dict_get_set_eq. by destruct (last _).
Qed.

Lemma mapping_get_from (h : heap) (old_methods new_methods : list ref)
    (d : dict ref ref) (old : ref) :
  dict_get (foldl (scan_new h new_methods) d old_methods) old
  = if decide (old ∈ old_methods)
    then match last (namesakes_of h new_methods old) with
         | Some n => Some n
         | None => dict_get d old
         end
    else dict_get d old.
Proof.
  revert d. induction old_methods as [|o olds IH]; intros d; cbn [foldl].
  - destruct (decide (old ∈ [])) as [Hin|_]; [by apply elem_of_nil in Hin | done].
  - rewrite IH. destruct (decide (o = old)) as [->|Hne].
    + rewrite scan_new_get.
      destruct (decide (old ∈ old :: olds)) as [_|Hnotin];
        [|by destruct Hnotin; left].
      destruct (decide (old ∈ olds)), (last _); done.
    + rewrite scan_new_other by done.
      destruct (decide (old ∈ olds)) as [Hin|Hnotin],
               (decide (old ∈ o :: olds)) as [Hin'|Hnotin']; try done.
      * destruct Hnotin'. by right.
      * apply elem_of_cons in Hin' as [?|?]; [congruence | done].
Qed.

Lemma dict_set_keys {V} (d : dict ref V) (k : ref) (v : V) :
  (dict_set d k v).*1 = if decide (k ∈ d.*1) then d.*1 else d.*1 ++ [k].
Proof.
  induction d as [|[k' v'] d IH]; cbn [dict_set fmap list_fmap fst].
  - destruct (decide (k ∈ [])) as [Hin|_]; [by apply elem_of_nil in Hin | done].
  - destruct (decide (k = k')) as [->|Hne]; cbn [fmap list_fmap fst].
    + destruct (decide (k' ∈ k' :: d.*1)) as [_|Hnotin];
        [done | by destruct Hnotin; left].
    + rewrite IH.
      destruct (decide (k ∈ d.*1)) as [Hin|Hnotin],
               (decide (k ∈ k' :: d.*1)) as [Hin'|Hnotin']; try done.
      * destruct Hnotin'. by right.
      * apply elem_of_cons in Hin' as [?|?]; [congruence | done].
Qed.

Lemma scan_new_keys (h : heap) (new_methods : list ref) (d : dict ref ref)
    (old : ref) :
  (scan_new h new_methods d old).*1
  = if has_namesake h new_methods old
    then (if decide (old ∈ d.*1) then d.*1 else d.*1 ++ [old])
    else d.*1.
Proof.
  unfold scan_new, has_namesake. revert d.
  induction new_methods as [|n news IH]; intros d; simpl; [done|].
  rewrite IH. destruct (String.eqb _ _); simpl; [|done].
  rewrite dict_set_keys.
  destruct (decide (old ∈ d.*1)) as [Hin|Hnotin].
  - rewrite decide_True by done. by destruct (existsb _ _).
  - rewrite decide_True by (apply elem_of_app; right; by left).
    by destruct (existsb _ _).
Qed.

Lemma mapping_keys_NoDup (h : heap) (old_methods new_methods : list ref)
    (d : dict ref ref) :
  NoDup d.*1 → NoDup (foldl (scan_new h new_methods) d old_methods).*1.
Proof.
  revert d. induction old_methods as [|o olds IH]; intros d Hd; simpl; [done|].
  apply IH. rewrite scan_new_keys.
  destruct (has_namesake _ _ _); [|done].
  destruct (decide (o ∈ d.*1)) as [Hin|Hnotin]; [done|].
  apply NoDup_app. split_and!; [done| |apply NoDup_singleton].
  intros x Hx ->%list_elem_of_singleton. done.
Qed.

Lemma mapping_keys_from (h : heap) (old_methods new_methods : list ref)
    (d : dict ref ref) :
  NoDup old_methods → (∀ o, o ∈ old_methods → o ∉ d.*1) →
  (foldl (scan_new h new_methods) d old_methods).*1
  = d.*1 ++ List.filter (has_namesake h new_methods) old_methods.
Proof.
  revert d. induction old_methods as [|o olds IH]; intros d Hnd Hfresh; simpl.
  - by rewrite app_nil_r.
  - apply NoDup_cons in Hnd as [Ho Hnd].
    assert (Hod : o ∉ d.*1) by (apply Hfresh; by left).
    rewrite IH; [|done|].
    + rewrite scan_new_keys. destruct (has_namesake h new_methods o); [|done].
      rewrite decide_False by done. by rewrite <- app_assoc.
    + intros o' Ho'. rewrite scan_new_keys.
      assert (o' ∉ d.*1) by (apply Hfresh; by right).
      destruct (has_namesake h new_methods o); [|done].
      rewrite decide_False by done.
      intros [?|Hs]%elem_of_app; [done|].
      apply list_elem_of_singleton in Hs as ->. done.
Qed.

(** X1: what the mapping holds for an old method: the last of the new
    methods with its qualified name if it is in the list of old methods
    and there is one, and nothing otherwise. *)
Theorem X1_mapping_lookup (h : heap) (old_methods new_methods : list ref)
    (old : ref) :
  dict_get (GitAnalyzer._get_methods_mapping h old_methods new_methods) old
  = if decide (old ∈ old_methods)
    then last (namesakes_of h new_methods old)
    else None.
Proof.
  rewrite _get_methods_mapping_fold, mapping_get_from. simpl.
  destruct (decide _); [by destruct (last _) | done].
Qed.

(** X2: no old method is twice a key of the mapping, whatever the lists;
    and when no object is twice in the list of old methods, the keys are
    the old methods that have a namesake on the new side, in the order of
    the old list: that is the order in which the pairs go to the
    builder. *)
Theorem X2_mapping_keys (h : heap) (old_methods new_methods : list ref) :
  NoDup (GitAnalyzer._get_methods_mapping h old_methods new_methods).*1
  ∧ (NoDup old_methods →
     (GitAnalyzer._get_methods_mapping h old_methods new_methods).*1
     = List.filter (has_namesake h new_methods) old_methods).
Proof.
  rewrite _get_methods_mapping_fold. split.
  - apply mapping_keys_NoDup. constructor.
  - intros Hnd. rewrite mapping_keys_from; [done|done|].
    intros o _. apply not_elem_of_nil.
Qed.

(** ** Commit records, in full *)

Lemma _extract_commits_full (repo : repository) (history : list pd_commit) :
  Forall2 (λ record c,
             c_hash record = pd_hash c ∧ c_msg record = pd_msg c
             ∧ c_repo record = repo
             ∧ c_modifications record = map to_modification (pd_modifications c))
          (GitAnalyzer._extract_commits repo history)
          (List.filter has_parents history)
  ∧ map c_num (GitAnalyzer._extract_commits repo history)
    = seq 1 (length (List.filter has_parents history)).
Proof.
  induction history as [|c history [IHrec IHnum]] using rev_ind;
    [by split; [constructor|]|].
  unfold GitAnalyzer._extract_commits in *. rewrite foldl_app, List.filter_app.
  simpl. unfold has_parents at 2 4.
  destruct (parents c) as [|parent more] eqn:Hparents; simpl.
  - by rewrite !app_nil_r.
  - split.
    + apply Forall2_app; [done|]. by constructor; [|constructor].
    + rewrite map_app, IHnum, length_app, seq_app. simpl.
      by rewrite (Forall2_length _ _ _ IHrec), Nat.add_1_r.
Qed.

(** X3: the records of a repository are numbered 1, 2, ... in the order
    of the history, counting only the commits that have a parent, and
    each holds the hash and message of its commit, the repository, and
    the modifications of the commit, all of them and in order, with kind,
    texts and paths as the mining collaborator gave them. *)
Theorem X3_commit_records (repo : repository) (history : list pd_commit) :
  let records := GitAnalyzer._extract_commits repo history in
  let kept := List.filter has_parents history in
  map c_num records = seq 1 (length kept)
  ∧ Forall2 (λ record c,
               c_hash record = pd_hash c ∧ c_msg record = pd_msg c
               ∧ c_repo record = repo
               ∧ map m_type (c_modifications record)
                 = map change_type (pd_modifications c)
               ∧ map old_src (c_modifications record)
                 = map source_code_before (pd_modifications c)
               ∧ map old_path (c_modifications record)
                 = map pd_old_path (pd_modifications c)
               ∧ map new_src (c_modifications record)
                 = map source_code (pd_modifications c)
               ∧ map new_path (c_modifications record)
                 = map pd_new_path (pd_modifications c))
            records kept.
Proof.
  intros records kept.
  destruct (_extract_commits_full repo history) as [Hrec Hnum].
  split; [done|].
  eapply Forall2_impl; [exact Hrec|].
  intros record c (Hhash & Hmsg & Hrepo & ->).
  rewrite !map_map. by split_and!.
Qed.

(** ** Repositories *)

(** X4: no task is given to the pool for a directory whose name starts
    with an underscore: every task of [build_change_graphs] carries the
    repository of a listed directory whose name does not start with one,
    and the hash of a commit of its history that has a parent. *)
Theorem X4_excluded_directories (dirs : list GitAnalyzer.repo_dir)
    (tasks : list commit) (task : commit) :
  tasks ∈ GitAnalyzer.build_change_graphs dirs →
  task ∈ tasks →
  GitAnalyzer.startswith (r_name (c_repo task)) "_" = false
  ∧ ∃ d c, d ∈ dirs ∧ c ∈ GitAnalyzer.dir_history d
           ∧ c_repo task = GitAnalyzer.dir_repo d
           ∧ c_hash task = pd_hash c ∧ parents c ≠ [].
Proof.
  unfold GitAnalyzer.build_change_graphs.
  intros (d & <- & Hd)%list_elem_of_In%in_map_iff Htask.
  apply filter_In in Hd as [Hd Hname%negb_true_iff].
  apply list_elem_of_lookup_1 in Htask as [i Hi].
  destruct (_extract_commits_full (GitAnalyzer.dir_repo d)
              (GitAnalyzer.dir_history d)) as [Hrec _].
  destruct (Forall2_lookup_l _ _ _ _ _ Hrec Hi) as (c & Hc & Hhash & _ & Hrepo & _).
  apply list_elem_of_lookup_2, list_elem_of_In, filter_In in Hc as [Hc Hparents].
  rewrite Hrepo. split; [done|].
  exists d, c. split_and!; [by apply list_elem_of_In | by apply list_elem_of_In
                           | done | done |].
  unfold has_parents in Hparents. by destruct (parents c).
Qed.

(** ** The commit message in the log *)

Lemma replace_newlines_no_line_feed (s : string) :
  no_line_feed (GitAnalyzer.replace_newlines s) = true.
Proof.
  induction s as [|ch s IH]; [done|]. cbn [GitAnalyzer.replace_newlines].
  destruct (Ascii.eqb ch Py.LF) eqn:Hch.
  - change ("; " +:+ GitAnalyzer.replace_newlines s)
      with (String ";" (String " " (GitAnalyzer.replace_newlines s))).
    cbn [no_line_feed]. by rewrite IH.
  - cbn [no_line_feed]. by rewrite Hch, IH.
Qed.

Lemma replace_newlines_closed (s : string) :
  GitAnalyzer.replace_newlines s = line_feeds_replaced s.
Proof.
  unfold line_feeds_replaced.
  induction s as [|ch s IH]; [done|].
  cbn [GitAnalyzer.replace_newlines list_ascii_of_string flat_map].
  destruct (Ascii.eqb ch Py.LF).
  - change ("; " +:+ GitAnalyzer.replace_newlines s)
      with (String ";" (String " " (GitAnalyzer.replace_newlines s))).
    by rewrite IH.
  - cbn [app string_of_list_ascii]. by rewrite IH.
Qed.

Lemma replace_newlines_id (s : string) :
  no_line_feed s = true → GitAnalyzer.replace_newlines s = s.
Proof.
  induction s as [|ch s IH]; [done|]. cbn [no_line_feed GitAnalyzer.replace_newlines].
  intros [Hch%negb_true_iff Hs]%andb_prop. by rewrite Hch, IH.
Qed.

(** ** Relations every step of a worker keeps *)

Lemma elem_of_dict_get {V} (d : dict ref V) (k : ref) (v : V) :
  NoDup d.*1 → (k, v) ∈ d → dict_get d k = Some v.
Proof.
  induction d as [|[k' v'] d IH]; cbn [dict_get fmap list_fmap fst].
  - intros _ Hin. by apply elem_of_nil in Hin.
  - intros [Hk' Hnd]%NoDup_cons [[= -> ->]|Hin]%elem_of_cons.
    + by rewrite decide_True.
    + destruct (decide (k = k')) as [->|Hne]; [|by apply IH].
      destruct Hk'. apply list_elem_of_fmap. by exists (k', v).
Qed.

(** The entries of the mapping are pairs of an old and a new method with
    the same qualified name. *)
Lemma mapping_sound (h : heap) (old_methods new_methods : list ref) (o n : ref) :
  (o, n) ∈ GitAnalyzer._get_methods_mapping h old_methods new_methods →
  o ∈ old_methods ∧ n ∈ new_methods
  ∧ full_name (h !!! o) = full_name (h !!! n).
Proof.
  intros Hin. apply elem_of_dict_get in Hin.
  - rewrite _get_methods_mapping_fold, mapping_get_from in Hin. simpl in Hin.
    destruct (decide (o ∈ old_methods)) as [Ho|_]; [|done].
    destruct (last (namesakes_of h new_methods o)) as [n'|] eqn:Hlast; [|done].
    injection Hin as ->.
    apply last_Some_elem_of, list_elem_of_In, filter_In in Hlast as [Hn Heq].
    split_and!; [done | by apply list_elem_of_In | by apply String.eqb_eq].
  - rewrite _get_methods_mapping_fold. apply mapping_keys_NoDup. constructor.
Qed.

(** What [_extract_methods] does to the state: it keeps the objects there
    were, adds one entry to the record of extractions, and what it
    returns are references to objects of the new heap. *)
Lemma _extract_methods_refs `{Collaborators} (path : string)
    (source : option string) (st : state) :
  ∃ r st',
    GitAnalyzer._extract_methods path source st = (r, st')
    ∧ objects st `prefix_of` objects st'
    ∧ (∀ refs, r = Ret refs → Forall (λ r, r < length (objects st')) refs)
    ∧ logged st `prefix_of` logged st'
    ∧ extractions st' = extractions st ++ [(path, source)]
    ∧ builder_calls st' = builder_calls st
    ∧ stored st' = stored st
    ∧ uuid_calls st' = uuid_calls st.
Proof.
  destruct (_extract_methods_extraction path source st) as (extra & _ & ->).
  eexists _, _. split; [reflexivity|].
  cbn [objects logged extractions builder_calls stored uuid_calls].
  destruct (extraction path source (objects st)) as [[refs h']|e] eqn:Hext.
  - apply extraction_grows in Hext as [Hpre Hrefs].
    split_and!; try done; [by intros refs' [= <-] | by apply prefix_app_r].
  - split_and!; try done. by apply prefix_app_r.
Qed.

Section Relations.
Context `{Collaborators}.
Variable R : state → state → Prop.
Variable P : commit → Prop.
Hypothesis R_refl : ∀ st, R st st.
Hypothesis R_trans : ∀ st1 st2 st3, R st1 st2 → R st2 st3 → R st1 st3.
Hypothesis R_log : ∀ lvl msg st, R st (logger_log lvl msg st).2.
Hypothesis R_store :
  ∀ graphs st, graphs ≠ [] → R st (GitAnalyzer._store_change_graphs graphs st).2.
Hypothesis R_extract :
  ∀ path source st, R st (GitAnalyzer._extract_methods path source st).2.
Hypothesis R_call :
  ∀ c o n a b st,
    P c → matched (objects st) o n →
    get_source (objects st !!! o) = Some a →
    get_source (objects st !!! n) = Some b →
    a ≠ "" → b ≠ "" → a ≠ b →
    R st (call_builder a b
            (mkRepoInfo (r_name (c_repo c)) (r_path (c_repo c))
                        (r_url (c_repo c)) (c_hash c) o n) st).2.

Lemma R_logs (extra : list log_entry) (st : state) :
  R st (mkState (objects st) (logged st ++ extra) (extractions st)
                (builder_calls st) (stored st) (uuid_calls st)).
Proof.
  revert st. induction extra as [|[lvl msg] extra IH]; intros st.
  - rewrite state_eta. apply R_refl.
  - eapply R_trans; [apply (R_log lvl msg)|].
    pose proof (IH (logger_log lvl msg st).2) as Hrest. simpl in Hrest.
    by rewrite <- app_assoc in Hrest.
Qed.

Lemma process_pair_relation (c : commit) (o n : ref) (cgs : list ChangeGraph)
    (st : state) :
  P c → matched (objects st) o n →
  R st (GitAnalyzer.process_pair c (o, n) cgs st).2
  ∧ objects (GitAnalyzer.process_pair c (o, n) cgs st).2 = objects st.
Proof.
  intros Hc Hmatched.
  destruct (negb (forallb Py.truthy [get_source (objects st !!! o);
                                     get_source (objects st !!! n)])
            || bool_decide (get_source (objects st !!! o)
                            = get_source (objects st !!! n))) eqn:Hfilter.
  - destruct (process_pair_filtered c o n cgs st Hfilter) as [extra ->].
    split; [apply R_logs | done].
  - apply filter_passes in Hfilter as (a & b & Ho & Hn & Ha & Hb & Hab).
    rewrite (process_pair_built c o n cgs st a b) by done. cbn zeta.
    pose proof (R_call c o n a b st Hc Hmatched Ho Hn Ha Hb Hab) as Hcall.
    destruct (build_from_files a b _ (objects st)) as [cg|e].
    + destruct (STORE_INTERVAL <=? _)%Z; [|by split].
      split.
      * eapply R_trans; [exact Hcall|]. apply R_store. by destruct cgs.
      * match goal with |- context [GitAnalyzer._store_change_graphs ?g ?st1] =>
          by destruct (_store_change_graphs_spec g st1) as [extra ->] end.
    + split; [|done]. eapply R_trans; [exact Hcall | apply R_log].
Qed.

Lemma pairs_relation (c : commit) (pairs : list (ref * ref))
    (cgs : list ChangeGraph) (st : state) :
  P c → Forall (λ p, matched (objects st) p.1 p.2) pairs →
  R st (for_each (GitAnalyzer.process_pair c) pairs cgs st).2
  ∧ objects (for_each (GitAnalyzer.process_pair c) pairs cgs st).2 = objects st.
Proof.
  intros Hc. revert cgs st.
  induction pairs as [|[o n] pairs IH]; intros cgs st Hpairs; cbn [for_each].
  - by split.
  - apply Forall_cons in Hpairs as [Hon Hpairs]. simpl in Hon.
    destruct (process_pair_relation c o n cgs st Hc Hon) as [Hstep Hobj].
    unfold mbind.
    destruct (GitAnalyzer.process_pair c (o, n) cgs st) as [[cgs'|e] st'];
      simpl in *; [|by split].
    destruct (IH cgs' st') as [Hrest Hobj']; [by rewrite Hobj|].
    split; [by eapply R_trans | congruence].
Qed.
Lemma process_mod_relation (c : commit) (modif : modification)
    (cgs : list ChangeGraph) (st : state) :
  P c → R st (GitAnalyzer.process_mod c modif cgs st).2.
Proof.
  intros Hc. unfold GitAnalyzer.process_mod.
  destruct (negb (bool_decide (m_type modif = MODIFY))); [apply R_refl|].
  destruct (old_path modif) as [old_p|]; [|apply R_refl].
  destruct (new_path modif) as [new_p|]; [|apply R_refl].
  destruct (negb _); [apply R_refl|]. unfold mbind at 1.
  pose proof (R_extract old_p (old_src modif) st) as Hstep1.
  destruct (_extract_methods_refs old_p (old_src modif) st)
    as ([olds|e1] & st1 & Heq1 & Hpre1 & Holds & _);
    rewrite Heq1 in Hstep1 |- *; [|done].
  specialize (Holds olds eq_refl). unfold mbind at 1.
  pose proof (R_extract new_p (new_src modif) st1) as Hstep2.
  destruct (_extract_methods_refs new_p (new_src modif) st1)
    as ([news|e2] & st2 & Heq2 & Hpre2 & Hnews & _);
    rewrite Heq2 in Hstep2 |- *; [|by eapply R_trans].
  specialize (Hnews news eq_refl). unfold mbind at 1, get_heap. simpl in *.
  eapply R_trans; [exact Hstep1|]. eapply R_trans; [exact Hstep2|].
  apply pairs_relation; [done|].
  apply Forall_forall. intros [o n] Hon. apply mapping_sound in Hon
    as (Ho & Hn & Hname). simpl.
  apply (proj1 (Forall_forall _ _) Holds) in Ho.
  apply (proj1 (Forall_forall _ _) Hnews) in Hn.
  apply prefix_length in Hpre2. unfold matched. split_and!; [lia | done | done].
Qed.

Lemma mods_relation (c : commit) (mods : list modification)
    (cgs : list ChangeGraph) (st : state) :
  P c → R st (for_each (GitAnalyzer.process_mod c) mods cgs st).2.
Proof.
  intros Hc. revert cgs st.
  induction mods as [|modif mods IH]; intros cgs st; cbn [for_each];
    [apply R_refl|].
  unfold mbind. pose proof (process_mod_relation c modif cgs st Hc) as Hstep.
  destruct (GitAnalyzer.process_mod c modif cgs st) as [[cgs'|e] st'];
    simpl in *; [|done].
  eapply R_trans; [exact Hstep | apply IH].
Qed.

Lemma task_relation (c : commit) (st : state) :
  P c → R st (GitAnalyzer._get_commit_change_graphs c st).2.
Proof.
  intros Hc. unfold GitAnalyzer._get_commit_change_graphs, mbind at 1.
  match goal with |- context [logger_log INFO ?m st] =>
    pose proof (R_log INFO m st) as Hlog;
    destruct (logger_log INFO m st) as [[[]|e] st0] eqn:Hst0; [|done] end.
  simpl in Hlog. unfold mbind.
  pose proof (mods_relation c (c_modifications c) [] st0 Hc) as Hmods.
  destruct (for_each _ _ _ _) as [[[|cg cgs]|e] st1]; simpl in *.
  - by eapply R_trans.
  - eapply R_trans; [exact Hlog|]. eapply R_trans; [exact Hmods|].
    by apply R_store.
  - by eapply R_trans.
Qed.

Lemma worker_relation (tasks : list commit) (st : state) :
  Forall P tasks → R st (GitAnalyzer.worker tasks st).
Proof.
  intros Htasks. revert st.
  induction Htasks as [|c tasks Hc _ IH]; intros st; simpl; [apply R_refl|].
  eapply R_trans; [by apply task_relation | apply IH].
Qed.
End Relations.

(** ** A worker only adds to what it keeps *)

Lemma grows_refl `{Collaborators} (st : state) : grows st st.
Proof. by unfold grows; split_and!. Qed.

Lemma grows_trans `{Collaborators} (st1 st2 st3 : state) :
  grows st1 st2 → grows st2 st3 → grows st1 st3.
Proof.
  intros (? & ? & ? & ? & ? & ?) (? & ? & ? & ? & ? & ?).
  unfold grows; split_and!; by etrans.
Qed.

Lemma logger_log_grows `{Collaborators} (lvl : log_level) (msg : string)
    (st : state) :
  grows st (logger_log lvl msg st).2.
Proof. unfold grows; simpl; split_and!; try done. by apply prefix_app_r. Qed.

Lemma _store_change_graphs_grows `{Collaborators} (graphs : list ChangeGraph)
    (st : state) :
  grows st (GitAnalyzer._store_change_graphs graphs st).2.
Proof.
  destruct (_store_change_graphs_spec graphs st) as [extra ->].
  unfold grows; simpl; split_and!; try done; try (by apply prefix_app_r); lia.
Qed.

Lemma _extract_methods_grows `{Collaborators} (path : string)
    (source : option string) (st : state) :
  grows st (GitAnalyzer._extract_methods path source st).2.
Proof.
  destruct (_extract_methods_refs path source st)
    as (r & st' & -> & Hobj & _ & Hlog & Hex & Hcalls & Hstored & Huuid).
  unfold grows; simpl. rewrite Hex, Hcalls, Hstored, Huuid.
  split_and!; try done. by apply prefix_app_r.
Qed.

Lemma call_builder_grows `{Collaborators} (a b : string) (info : RepoInfo)
    (st : state) :
  grows st (call_builder a b info st).2.
Proof. unfold grows; simpl; split_and!; try done. by apply prefix_app_r. Qed.

Lemma worker_grows `{Collaborators} (tasks : list commit) (st : state) :
  grows st (GitAnalyzer.worker tasks st).
Proof.
  apply (worker_relation grows (λ _, True)).
  - apply grows_refl.
  - apply grows_trans.
  - apply logger_log_grows.
  - intros graphs st0 _. apply _store_change_graphs_grows.
  - apply _extract_methods_grows.
  - intros. apply call_builder_grows.
  - by apply Forall_true.
Qed.

(** X5: the commit message, as it is written to the log, is the message
    with each line feed replaced by a semicolon and a space, and every
    other character kept; so it holds no line feed, and is the message
    itself when that holds none.  The first record a task logs is the
    [INFO] record with the hash and this message between quotes. *)
Theorem X5_logged_commit_message `{Collaborators} (c : commit) (st : state) :
  GitAnalyzer.replace_newlines (c_msg c) = line_feeds_replaced (c_msg c)
  ∧ no_line_feed (GitAnalyzer.replace_newlines (c_msg c)) = true
  ∧ (no_line_feed (c_msg c) = true → GitAnalyzer.replace_newlines (c_msg c) = c_msg c)
  ∧ ∃ later,
      logged (GitAnalyzer._get_commit_change_graphs c st).2
      = logged st
        ++ mkLog INFO ("Looking at commit #" +:+ c_hash c +:+ ", msg: "
                       +:+ GitAnalyzer.quote
                       +:+ GitAnalyzer.replace_newlines (c_msg c)
                       +:+ GitAnalyzer.quote)
           :: later.
Proof.
  split; [apply replace_newlines_closed|].
  split; [apply replace_newlines_no_line_feed|].
  split; [apply replace_newlines_id|].
  unfold GitAnalyzer._get_commit_change_graphs, mbind at 1.
  match goal with |- context [logger_log INFO ?m st] =>
    set (st0 := (logger_log INFO m st).2);
    change (logger_log INFO m st) with (Ret (), st0) end.
  cbn iota. unfold mbind.
  pose proof (mods_relation grows (λ _, True) grows_refl grows_trans
                logger_log_grows
                (λ graphs st1 _, _store_change_graphs_grows graphs st1)
                _extract_methods_grows
                (λ c o n a b st1 _ _ _ _ _ _ _,
                   call_builder_grows a b _ st1)
                c (c_modifications c) [] st0 I) as Hmods.
  destruct (for_each _ _ _ _) as [[[|cg cgs]|e] st1]; simpl in Hmods.
  - destruct Hmods as (_ & [later Hlater] & _). exists later.
    cbn [snd mret]. rewrite Hlater. subst st0. simpl. by rewrite <- app_assoc.
  - pose proof (_store_change_graphs_grows (cg :: cgs) st1) as Hstore.
    destruct (grows_trans _ _ _ Hmods Hstore) as (_ & [later Hlater] & _).
    exists later. rewrite Hlater. subst st0. simpl. by rewrite <- app_assoc.
  - destruct Hmods as (_ & [later Hlater] & _). exists later.
    cbn [snd]. rewrite Hlater. subst st0. simpl. by rewrite <- app_assoc.
Qed.

(** X6: whatever tasks a worker runs, it only adds to what it keeps: the
    objects, the log records, the record of extractions, the builder
    calls and the files it had are still there, unchanged and in place.
    In particular a method extracted from one file keeps its attributes,
    its qualified name among them, while other files are visited. *)
Theorem X6_worker_only_adds `{Collaborators} (tasks : list commit) (st : state) :
  grows st (GitAnalyzer.worker tasks st)
  ∧ ∀ r m, objects st !! r = Some m →
           objects (GitAnalyzer.worker tasks st) !! r = Some m.
Proof.
  pose proof (worker_grows tasks st) as Hgrows. split; [done|].
  intros r m Hr. destruct Hgrows as (Hobj & _).
  by eapply prefix_lookup_Some.
Qed.

(** ** The names of the files *)

Lemma length_append (s1 s2 : string) :
  String.length (s1 +:+ s2) = String.length s1 + String.length s2.
Proof.
  induction s1 as [|ch s1 IH]; [done|].
  change (S (String.length (s1 +:+ s2)) = S (String.length s1 + String.length s2)).
  by rewrite IH.
Qed.

Lemma append_inj_l (s1 s2 t : string) : s1 +:+ t = s2 +:+ t → s1 = s2.
Proof.
  revert s2. induction s1 as [|ch s1 IH]; intros [|ch' s2] Heq.
  - done.
  - apply (f_equal String.length) in Heq. rewrite !length_append in Heq.
    simpl in Heq. lia.
  - apply (f_equal String.length) in Heq. rewrite !length_append in Heq.
    simpl in Heq. lia.
  - change (String ch (s1 +:+ t) = String ch' (s2 +:+ t)) in Heq.
    injection Heq as -> Heq. f_equal. by apply IH.
Qed.

Lemma files_named_refl `{Collaborators} (st st' : state) :
  stored st' = stored st → uuid_calls st' = uuid_calls st → files_named st st'.
Proof. intros Hs Hu. exists []. rewrite Hs, Hu, app_nil_r. simpl. by split_and!. Qed.

Lemma files_named_trans `{Collaborators} (st1 st2 st3 : state) :
  files_named st1 st2 → files_named st2 st3 → files_named st1 st3.
Proof.
  intros (f1 & Hs1 & Hu1 & Hn1) (f2 & Hs2 & Hu2 & Hn2). exists (f1 ++ f2).
  rewrite Hs2, Hs1, Hu2, length_app, fmap_app, seq_app, map_app, Hn1, Hn2,
    <- Hu1, <- app_assoc.
  split_and!; [done | lia | done].
Qed.

Lemma worker_files_named `{Collaborators} (tasks : list commit) (st : state) :
  files_named st (GitAnalyzer.worker tasks st).
Proof.
  apply (worker_relation files_named (λ _, True)).
  - intros st0. by apply files_named_refl.
  - apply files_named_trans.
  - intros lvl msg st0. by apply files_named_refl.
  - intros graphs st0 _.
    destruct (_store_change_graphs_spec graphs st0) as [extra ->]. simpl.
    eexists [_]. simpl. split_and!; [done | lia | done].
  - intros path source st0.
    destruct (_extract_methods_refs path source st0)
      as (r & st' & -> & _ & _ & _ & _ & _ & Hstored & Huuid).
    by apply files_named_refl.
  - intros. by apply files_named_refl.
  - by apply Forall_true.
Qed.

(** X7: the files a worker writes bear, in order, the names of the
    identifiers it draws, one identifier for each file and [.pickle] after
    it; so when [uuid4] never gives the same identifier twice, no two of
    the files have the same name, and none overwrites another. *)
Theorem X7_file_names `{Collaborators} (tasks : list commit) (st : state) :
  let st' := GitAnalyzer.worker tasks st in
  let names := (drop (length (stored st)) (stored st')).*1 in
  names = map file_name (seq (uuid_calls st) (uuid_calls st' - uuid_calls st))
  ∧ length names = uuid_calls st' - uuid_calls st
  ∧ ((∀ i j, uuid4 i = uuid4 j → i = j) → NoDup names).
Proof.
  intros st' names. subst st' names.
  destruct (worker_files_named tasks st) as (files & -> & -> & Hnames).
  rewrite drop_app_length, Hnames.
  replace (uuid_calls st + length files - uuid_calls st) with (length files) by lia.
  split_and!; [done | by rewrite length_map, length_seq |].
  intros Hinj. apply NoDup_fmap_2_strong; [|apply NoDup_seq].
  intros i j _ _ Heq. apply Hinj. unfold file_name in Heq.
  by apply append_inj_l in Heq.
Qed.

(** ** What the builder is called with *)

Lemma call_described_prefix `{Collaborators} (h h' : heap) (c : commit)
    (k : builder_call) :
  h `prefix_of` h' → call_described h c k → call_described h' c k.
Proof.
  intros Hpre (? & ? & ? & ? & (Ho & Hn & Hname) & Hold & Hnew).
  assert (Hsame : ∀ r, r < length h → h' !!! r = h !!! r).
  { intros r Hr. destruct (lookup_lt_is_Some_2 h r Hr) as [m Hm].
    rewrite (list_lookup_total_correct h r m Hm).
    apply list_lookup_total_correct. by eapply prefix_lookup_Some. }
  pose proof (prefix_length _ _ Hpre).
  unfold call_described, matched. rewrite !Hsame by done.
  split_and!; try done; lia.
Qed.

Lemma calls_described_refl `{Collaborators} (P : commit → Prop) (st st' : state) :
  objects st `prefix_of` objects st' → builder_calls st' = builder_calls st →
  calls_described P st st'.
Proof. intros Hobj Hcalls. split; [done|]. exists []. by rewrite app_nil_r. Qed.

Lemma calls_described_trans `{Collaborators} (P : commit → Prop)
    (st1 st2 st3 : state) :
  calls_described P st1 st2 → calls_described P st2 st3 →
  calls_described P st1 st3.
Proof.
  intros (Hobj1 & calls1 & Hc1 & Hd1) (Hobj2 & calls2 & Hc2 & Hd2).
  split; [by etrans|]. exists (calls1 ++ calls2).
  rewrite Hc2, Hc1, <- app_assoc. split; [done|].
  apply Forall_app. split; [|done].
  eapply Forall_impl; [exact Hd1|]. intros k (c & Hc & Hk).
  exists c. split; [done|]. by eapply call_described_prefix.
Qed.

Lemma worker_calls_described `{Collaborators} (P : commit → Prop)
    (tasks : list commit) (st : state) :
  Forall P tasks → calls_described P st (GitAnalyzer.worker tasks st).
Proof.
  apply (worker_relation (calls_described P) P).
  - intros st0. by apply calls_described_refl.
  - apply calls_described_trans.
  - intros lvl msg st0. by apply calls_described_refl.
  - intros graphs st0 _.
    destruct (_store_change_graphs_spec graphs st0) as [extra ->].
    by apply calls_described_refl.
  - intros path source st0.
    destruct (_extract_methods_refs path source st0)
      as (r & st' & -> & Hobj & _ & _ & _ & Hcalls & _).
    by apply calls_described_refl.
  - intros c o n a b st0 Hc Hmatched Ho Hn _ _ _.
    split; [done|]. eexists [_]. split; [reflexivity|].
    constructor; [|done]. exists c. split; [done|].
    unfold call_described. simpl. by split_and!.
Qed.

(** X8: every call of the builder a worker makes carries the name, path
    and URL of the repository and the hash of the commit of one of its
    tasks; its two methods are objects of the worker with the same
    qualified name, and the two texts it is given are what [get_source]
    returns for them. *)
Theorem X8_builder_calls_described `{Collaborators} (tasks : list commit)
    (st : state) :
  let st' := GitAnalyzer.worker tasks st in
  Forall (λ k, ∃ c, c ∈ tasks ∧ call_described (objects st') c k)
         (GitAnalyzer.calls_since st st').
Proof.
  intros st'. subst st'.
  destruct (worker_calls_described (λ c, c ∈ tasks) tasks st)
    as (_ & calls & Hcalls & Hdescribed).
  - by apply Forall_forall.
  - unfold GitAnalyzer.calls_since. by rewrite Hcalls, drop_app_length.
Qed.

(** ** Invariants of the batch, over the life of a worker *)

Section WorkerBatch.
Context `{Collaborators}.
Variable Q : state → Prop.
Variable Inv : list ChangeGraph → state → Prop.
Hypothesis Inv_start : ∀ st st', same_output st st' → Q st → Inv [] st'.
Hypothesis Inv_frame :
  ∀ cgs st st', same_output st st' → Inv cgs st → Inv cgs st'.
Hypothesis Inv_pair :
  ∀ c pair cgs st, Inv cgs st →
    Inv (match (GitAnalyzer.process_pair c pair cgs st).1 with
         | Ret cgs' => cgs' | Raise _ => cgs end)
        (GitAnalyzer.process_pair c pair cgs st).2.
Hypothesis Inv_drop : ∀ cgs st, Inv cgs st → Q st.
Hypothesis Inv_flush :
  ∀ cg cgs st, Inv (cg :: cgs) st →
    Q (GitAnalyzer._store_change_graphs (cg :: cgs) st).2.

Lemma task_batch_invariant (c : commit) (st : state) :
  Q st → Q (GitAnalyzer._get_commit_change_graphs c st).2.
Proof.
  intros HQ. destruct (task_unfold c st) as (st0 & Hsame & _ & _ & ->).
  pose proof (for_each_invariant Inv (λ st', ∃ cgs, Inv cgs st')
                (GitAnalyzer.process_mod c) (c_modifications c)) as Hloop.
  specialize (Hloop) with (acc := []) (st := st0).
  match type of Hloop with ?A → ?B → _ =>
    assert (HA : A); [|assert (HB : B); [|specialize (Hloop HA HB)]] end.
  - intros modif acc st1 _ Hacc.
    pose proof (process_mod_invariant Inv c Inv_frame (Inv_pair c)
                  modif acc st1 Hacc) as Hmod.
    destruct (GitAnalyzer.process_mod c modif acc st1) as [[acc'|e] st2];
      [done | subst; by exists acc].
  - by eapply Inv_start.
  - clear HA HB.
    destruct (for_each _ _ _ _) as [[[|cg cgs]|e] st1]; simpl.
    + by eapply Inv_drop.
    + by apply Inv_flush.
    + destruct Hloop as [cgs Hcgs]. by eapply Inv_drop.
Qed.

Lemma worker_batch_invariant (tasks : list commit) (st : state) :
  Q st → Q (GitAnalyzer.worker tasks st).
Proof.
  revert st. induction tasks as [|c tasks IH]; intros st HQ; simpl; [done|].
  by apply IH, task_batch_invariant.
Qed.
End WorkerBatch.

(** X9: every file a worker writes holds at least one graph, and at most
    as many as the flush threshold (one, if the threshold is below one),
    whether its tasks return or raise. *)
Theorem X9_file_sizes `{Collaborators} (tasks : list commit) (st : state) :
  Forall (λ graphs, 1 ≤ length graphs
                    ∧ (Z.of_nat (length graphs) ≤ Z.max STORE_INTERVAL 1)%Z)
         (GitAnalyzer.artifacts_since st (GitAnalyzer.worker tasks st)).
Proof.
  assert (Hfinal : sizes_within st (GitAnalyzer.worker tasks st)).
  { apply (worker_batch_invariant (sizes_within st)
             (λ cgs st', sizes_within st st'
                         ∧ (Z.of_nat (length cgs) < Z.max STORE_INTERVAL 1)%Z)).
    - intros st1 st2 [_ Hstored] (files & Hfiles & Hsizes). split; [|simpl; lia].
      exists files. by rewrite Hstored.
    - intros cgs st1 st2 [_ Hstored] [(files & Hfiles & Hsizes) Hlen].
      split; [|done]. exists files. by rewrite Hstored.
    - intros c [o n] cgs st1 [(files & Hfiles & Hsizes) Hlen].
      destruct (process_pair_step c o n cgs st1)
        as [[-> [_ Hstored]] | (a & b & answer & _ & _ & _ & _ & Hanswer)].
      { split; [|done]. exists files. by rewrite Hstored. }
      destruct answer as [cg|e].
      + destruct (Z.leb_spec STORE_INTERVAL (Z.of_nat (length (cgs ++ [cg]))))
          as [Hflush|Hkeep].
        * destruct Hanswer as [-> [f Hstored]]. split; [|simpl; lia].
          exists (files ++ [(f, cgs ++ [cg])]).
          rewrite Hstored, Hfiles, <- app_assoc. split; [done|].
          apply Forall_app. split; [done|]. constructor; [|done]. simpl.
          rewrite length_app. simpl. lia.
        * destruct Hanswer as [-> Hstored]. split; [|lia].
          exists files. by rewrite Hstored.
      + destruct Hanswer as [-> Hstored]. split; [|done].
        exists files. by rewrite Hstored.
    - by intros cgs st1 [Hsizes _].
    - intros cg cgs st1 [(files & Hfiles & Hsizes) Hlen].
      destruct (_store_change_graphs_spec (cg :: cgs) st1) as [extra ->]. simpl.
      eexists (files ++ [_]). rewrite Hfiles, <- app_assoc. split; [done|].
      apply Forall_app. split; [done|]. constructor; [|done]. simpl in *. lia.
    - exists []. by rewrite app_nil_r. }
  destruct Hfinal as (files & Hfiles & Hsizes).
  unfold GitAnalyzer.artifacts_since. rewrite Hfiles, drop_app_length.
  by apply Forall_fmap.
Qed.


(** ** What is parsed *)

Lemma process_pair_extractions `{Collaborators} (c : commit) (pair : ref * ref)
    (cgs : list ChangeGraph) (st : state) :
  extractions (GitAnalyzer.process_pair c pair cgs st).2 = extractions st.
Proof.
  destruct pair as [o n].
  destruct (negb (forallb Py.truthy [get_source (objects st !!! o);
                                     get_source (objects st !!! n)])
            || bool_decide (get_source (objects st !!! o)
                            = get_source (objects st !!! n))) eqn:Hfilter.
  - by destruct (process_pair_filtered c o n cgs st Hfilter) as [extra ->].
  - apply filter_passes in Hfilter as (a & b & Ho & Hn & Ha & Hb & Hab).
    rewrite (process_pair_built c o n cgs st a b) by done. cbn zeta.
    destruct (build_from_files a b _ (objects st)) as [cg|e]; [|done].
    destruct (STORE_INTERVAL <=? _)%Z; [|done].
    match goal with |- context [GitAnalyzer._store_change_graphs ?g ?st1] =>
      by destruct (_store_change_graphs_spec g st1) as [extra ->] end.
Qed.

Lemma pairs_extractions `{Collaborators} (c : commit) (pairs : list (ref * ref))
    (cgs : list ChangeGraph) (st : state) :
  extractions (for_each (GitAnalyzer.process_pair c) pairs cgs st).2
  = extractions st.
Proof.
  revert cgs st. induction pairs as [|pair pairs IH]; intros cgs st;
    cbn [for_each]; [done|].
  unfold mbind. pose proof (process_pair_extractions c pair cgs st) as Hstep.
  destruct (GitAnalyzer.process_pair c pair cgs st) as [[cgs'|e] st'];
    simpl in *; [|done].
  by rewrite IH.
Qed.

(** The old side of a fit modification is always entered, the new side
    when the visit of the old side returns. *)
Lemma process_mod_extractions `{Collaborators} (c : commit)
    (modif : modification) (cgs : list ChangeGraph) (st : state) :
  ∃ r st',
    GitAnalyzer.process_mod c modif cgs st = (r, st')
    ∧ extractions st'
      = extractions st
        ++ (if stack_suffices (old_src modif) then sides modif
            else take 1 (sides modif))
    ∧ (∀ cgs', r = Ret cgs' → extractions st' = extractions st ++ sides modif).
Proof.
  unfold GitAnalyzer.process_mod, sides, fit.
  destruct (bool_decide (m_type modif = MODIFY)); simpl.
  2: { eexists _, _. split; [reflexivity|]. rewrite Tauto.if_same, app_nil_r.
       by split. }
  destruct (old_path modif) as [old_p|].
  2: { eexists _, _. split; [reflexivity|]. rewrite Tauto.if_same, app_nil_r.
       by split. }
  destruct (new_path modif) as [new_p|]; simpl.
  2: { eexists _, _. split; [reflexivity|].
       rewrite andb_false_r, Tauto.if_same, app_nil_r. by split. }
  destruct (Py.endswith old_p ".py"), (Py.endswith new_p ".py"); simpl;
    try (eexists _, _; split; [reflexivity|];
         rewrite Tauto.if_same, app_nil_r; by split).
  unfold mbind at 1.
  destruct (stack_suffices (old_src modif)) eqn:Hstack.
  - destruct (_extract_methods_returns old_p (old_src modif) st Hstack)
      as (olds & h1 & extra1 & ->).
    unfold mbind at 1.
    match goal with |- context [GitAnalyzer._extract_methods new_p _ ?s1] =>
      destruct (_extract_methods_refs new_p (new_src modif) s1)
        as ([news|e2] & st2 & -> & _ & _ & _ & Hex2 & _) end.
    + unfold mbind at 1, get_heap.
      match goal with |- context [for_each _ ?m cgs st2] =>
        pose proof (pairs_extractions c m cgs st2) as Hpairs;
        destruct (for_each (GitAnalyzer.process_pair c) m cgs st2) as [r3 st3]
      end; simpl in *.
      eexists _, _. split; [reflexivity|].
      rewrite Hpairs, Hex2, <- app_assoc. by split.
    + eexists _, _. split; [reflexivity|]. simpl in *.
      rewrite Hex2, <- app_assoc. by split.
  - rewrite _extract_methods_overflow by done.
    eexists _, _. split; [reflexivity|]. by split.
Qed.

Lemma mods_extractions `{Collaborators} (c : commit) (mods : list modification)
    (cgs cgs' : list ChangeGraph) (st st' : state) :
  for_each (GitAnalyzer.process_mod c) mods cgs st = (Ret cgs', st') →
  extractions st' = extractions st ++ flat_map sides mods.
Proof.
  revert cgs st. induction mods as [|modif mods IH]; intros cgs st;
    cbn [for_each flat_map].
  - intros [= _ <-]. by rewrite app_nil_r.
  - unfold mbind.
    destruct (process_mod_extractions c modif cgs st)
      as ([cgs1|e] & st1 & -> & _ & Hstep); [|done].
    intros Hrest%IH. by rewrite Hrest, (Hstep cgs1), <- app_assoc.
Qed.

(** X11: a task that returns has called [_extract_methods] for the
    modifications of kind [MODIFY] whose two paths end with [.py], in the
    order of the commit, first with the old path and text and then with
    the new ones, and for nothing else. *)
Theorem X11_what_is_parsed `{Collaborators} (c : commit) (st : state) :
  (GitAnalyzer._get_commit_change_graphs c st).1 = Ret () →
  extractions (GitAnalyzer._get_commit_change_graphs c st).2
  = extractions st ++ flat_map sides (c_modifications c).
Proof.
  destruct (task_unfold c st) as (st0 & _ & _ & Hex & ->).
  destruct (for_each _ _ _ _) as [[[|cg cgs]|e] st1] eqn:Hmods; [| |done].
  - intros _. apply mods_extractions in Hmods. simpl. by rewrite Hmods, Hex.
  - intros _. apply mods_extractions in Hmods.
    destruct (_store_change_graphs_spec (cg :: cgs) st1) as [extra ->]. simpl.
    by rewrite Hmods, Hex.
Qed.

(** ** Methods whose text cannot be recovered *)

(** X12: a pair one of whose methods has no text ([get_source_segment]
    raised, or the node has no end position) is skipped: the batch is
    returned as it was, the builder is not called, nothing is written,
    and only [INFO] records are logged. *)
Theorem X12_span_failure_skips `{Collaborators} (c : commit) (o n : ref)
    (cgs : list ChangeGraph) (st : state) :
  get_source (objects st !!! o) = None ∨ get_source (objects st !!! n) = None →
  ∃ extra,
    GitAnalyzer.process_pair c (o, n) cgs st
    = (Ret cgs,
       mkState (objects st) (logged st ++ extra) (extractions st)
               (builder_calls st) (stored st) (uuid_calls st))
    ∧ Forall (λ e, level e = INFO) extra.
Proof.
  intros Hnone. unfold GitAnalyzer.process_pair, mbind.
  destruct (get_source_of_info o st) as (extra1 & -> & Hinfo1).
  match goal with |- context [GitAnalyzer.get_source_of n ?st1] =>
    destruct (get_source_of_info n st1) as (extra2 & -> & Hinfo2) end.
  simpl.
  assert (Py.truthy (get_source (objects st !!! o))
          && (Py.truthy (get_source (objects st !!! n)) && true) = false) as ->.
  { destruct Hnone as [-> | ->]; [done|]. by rewrite andb_false_r. }
  simpl. exists (extra1 ++ extra2). unfold mret. rewrite app_assoc.
  split; [done | by apply Forall_app].
Qed.

(** ** Commits without a fitting modification *)

(** X13: a task for a commit that has no modification, or only
    modifications that are not of kind [MODIFY] or have a path that does
    not end with [.py], returns after logging its first record: nothing
    is parsed, no object is made, the builder is not called and nothing
    is written. *)
Theorem X13_nothing_to_do `{Collaborators} (c : commit) (st : state) :
  Forall (λ modif, fit modif = false
                   ∧ (m_type modif = MODIFY →
                      is_Some (old_path modif) ∧ is_Some (new_path modif)))
         (c_modifications c) →
  GitAnalyzer._get_commit_change_graphs c st
  = (Ret (),
     mkState (objects st) (logged st ++ [start_record c]) (extractions st)
             (builder_calls st) (stored st) (uuid_calls st)).
Proof.
  intros Hunfit.
  unfold GitAnalyzer._get_commit_change_graphs, mbind at 1, logger_log.
  fold (start_record c).
  set (st0 := mkState _ _ _ _ _ _).
  assert (Hloop : ∀ cgs, for_each (GitAnalyzer.process_mod c) (c_modifications c)
                           cgs st0 = (Ret cgs, st0)).
  { clear -Hunfit.
    induction Hunfit as [|modif mods [Hfit Hpaths] _ IH]; intros cgs;
      cbn [for_each]; [done|].
    unfold mbind.
    assert (GitAnalyzer.process_mod c modif cgs st0 = (Ret cgs, st0)) as ->;
      [|apply IH].
    unfold GitAnalyzer.process_mod, fit in *.
    destruct (bool_decide_reflect (m_type modif = MODIFY)) as [Hmodify|_];
      [|done]. simpl in *.
    destruct (Hpaths Hmodify) as [[old_p Hold] [new_p Hnew]].
    rewrite Hold, Hnew in *. simpl in *.
    by destruct (Py.endswith old_p ".py"), (Py.endswith new_p ".py"). }
  unfold mbind. by rewrite Hloop.
Qed.

(** ** The objects the extractor makes *)

Section Allocation.
Variables (path source : string).

Local Abbreviation visit := (ASTMethodExtractor.visit path source).
Local Abbreviation visit_body := (ASTMethodExtractor.visit_body visit).
Local Abbreviation generic_visit := (ASTMethodExtractor.generic_visit visit).
Local Abbreviation extend_all := ASTMethodExtractor.extend_all.

Lemma made_by_extend_path (prefix : string) (m : Method) :
  made_by path source m → made_by path source (extend_path prefix m).
Proof. by intros (? & ? & ?). Qed.

Lemma allocated_refl (h : heap) : allocated path source h h.
Proof.
  intros i m Hi Hm. apply lookup_lt_Some in Hm. exfalso. lia.
Qed.

Lemma allocated_seq (h h1 h2 : heap) :
  length h ≤ length h1 →
  (∀ i, i < length h1 → h2 !! i = h1 !! i) →
  allocated path source h h1 → allocated path source h1 h2 →
  allocated path source h h2.
Proof.
  intros Hlen Hsame H1 H2 i m Hi Hm.
  destruct (decide (i < length h1)) as [Hlt|Hge].
  - rewrite Hsame in Hm by done. by eapply H1.
  - eapply H2; [|done]. lia.
Qed.

Lemma allocated_extend_all (cname : string) (h : heap) (refs : list ref)
    (h1 : heap) :
  NoDup refs → allocated path source h h1 →
  allocated path source h (extend_all cname refs h1).
Proof.
  intros Hnd Halloc i m Hi Hm.
  destruct (decide (i ∈ refs)) as [Hin|Hnotin].
  - rewrite lookup_extend_all_in in Hm by done.
    apply fmap_Some in Hm as (m1 & Hm1 & ->).
    apply made_by_extend_path. by eapply Halloc.
  - rewrite lookup_extend_all_notin in Hm by done. by eapply Halloc.
Qed.

Lemma visit_body_allocated (body : list stmt) :
  Forall (λ st, ∀ h, allocated path source h (visit st h).2) body →
  ∀ h, allocated path source h (visit_body body [] h).2.
Proof.
  induction 1 as [|st body Hst _ IH]; intros h; simpl; [apply allocated_refl|].
  pose proof (visit_extracted path source st h) as (Hlen & _).
  specialize (Hst h). destruct (visit st h) as [result h1]. simpl in *.
  rewrite visit_body_acc. simpl.
  pose proof (visit_Module_extracted path source body h1) as (_ & Hold & _).
  by eapply allocated_seq.
Qed.

Lemma generic_visit_allocated (children : list stmt) :
  Forall (λ st, ∀ h, allocated path source h (visit st h).2) children →
  ∀ h, allocated path source h (generic_visit children h).
Proof.
  induction 1 as [|st children Hst _ IH]; intros h; simpl;
    [apply allocated_refl|].
  pose proof (visit_extracted path source st h) as (Hlen & _).
  assert (Hall : Forall (λ st, ∀ h, extracted h (default [] (visit st h).1)
                                      (visit st h).2 (class_paths [] st))
                        children).
  { apply Forall_forall. intros st0 _ h0. apply visit_extracted. }
  pose proof (generic_visit_extracted path source children Hall (visit st h).2)
    as (_ & Hold & _).
  by eapply allocated_seq.
Qed.

Lemma visit_allocated (node : stmt) (h : heap) :
  allocated path source h (visit node h).2.
Proof.
  revert h. induction node as [fname p body _ | cname p body IH | p children IH]
    using stmt_nested_ind; intros h.
  - simpl. intros i m Hi Hm.
    destruct (decide (i = length h)) as [->|Hne].
    + pose proof (list_lookup_middle h []
                    (Method_init path fname (FunctionDef fname p body) source)
                    (length h) eq_refl) as Hmid.
      assert (m = Method_init path fname (FunctionDef fname p body) source)
        as ->.
      { unfold heap in *. rewrite Hmid in Hm. by injection Hm. }
      unfold made_by. simpl. by eauto.
    + apply lookup_lt_Some in Hm as Hlt. rewrite length_app in Hlt.
      simpl in Hlt. exfalso. lia.
  - simpl. pose proof (visit_body_allocated body IH h) as Hbody.
    pose proof (visit_Module_extracted path source body h) as (_ & _ & Hnd & _).
    unfold ASTMethodExtractor.visit_Module in Hnd.
    destruct (visit_body body [] h) as [methods h1]. simpl in *.
    by apply allocated_extend_all.
  - simpl. by apply generic_visit_allocated.
Qed.

Lemma visit_Module_allocated (body : list stmt) (h : heap) :
  allocated path source h
            (ASTMethodExtractor.visit_Module path source body h).2.
Proof.
  apply visit_body_allocated, Forall_forall. intros st _ h0.
  apply visit_allocated.
Qed.
End Allocation.

(** X14: the methods [visit_Module] returns are different objects, made
    by this visit and not there before; each has the path of the
    extractor, the text of the file stripped, and as its node a [def]
    whose name is the bare name of the method, so that the line of a
    diagnostic is the line of that [def]; the objects there were before
    the visit are left as they were. *)
Theorem X14_extracted_objects (path source : string) (body : list stmt)
    (h : heap) :
  let '(methods, h') := ASTMethodExtractor.visit_Module path source body h in
  NoDup methods
  ∧ Forall (λ r, length h ≤ r
                 ∧ ∃ m, h' !! r = Some m ∧ made_by path source m) methods
  ∧ h `prefix_of` h'.
Proof.
  pose proof (visit_Module_extracted path source body h)
    as (Hlen & Hold & Hnd & Hrange & _).
  pose proof (visit_Module_allocated path source body h) as Halloc.
  destruct (ASTMethodExtractor.visit_Module path source body h) as [methods h'].
  simpl in *. split_and!; [done| |by apply prefix_of_lookups].
  apply Forall_forall. intros r Hr. apply Hrange in Hr as Hbounds.
  split; [lia|].
  destruct (lookup_lt_is_Some_2 h' r) as [m Hm]; [lia|].
  exists m. split; [done|]. eapply Halloc; [|done]. lia.
Qed.

(** ** The URL of a repository *)

Lemma list_ascii_of_append (s1 s2 : string) :
  list_ascii_of_string (s1 +:+ s2)
  = list_ascii_of_string s1 ++ list_ascii_of_string s2.
Proof.
  induction s1 as [|ch s1 IH]; [done|].
  change (ch :: list_ascii_of_string (s1 +:+ s2)
          = ch :: (list_ascii_of_string s1 ++ list_ascii_of_string s2)).
  by rewrite IH.
Qed.

Lemma list_ascii_of_rev_app (s1 s2 : string) :
  list_ascii_of_string (String.rev_app s1 s2)
  = List.rev (list_ascii_of_string s1) ++ list_ascii_of_string s2.
Proof.
  revert s2. induction s1 as [|ch s1 IH]; intros s2; simpl; [done|].
  rewrite IH. simpl. by rewrite <- app_assoc.
Qed.

Lemma list_ascii_of_rev (s : string) :
  list_ascii_of_string (String.rev s) = List.rev (list_ascii_of_string s).
Proof.
  unfold String.rev. rewrite list_ascii_of_rev_app. simpl. apply app_nil_r.
Qed.

Lemma list_ascii_of_string_inj (s1 s2 : string) :
  list_ascii_of_string s1 = list_ascii_of_string s2 → s1 = s2.
Proof.
  intros Heq. apply (f_equal string_of_list_ascii) in Heq.
  by rewrite !string_of_list_ascii_of_string in Heq.
Qed.

Lemma string_rev_append (s1 s2 : string) :
  String.rev (s1 +:+ s2) = String.rev s2 +:+ String.rev s1.
Proof.
  apply list_ascii_of_string_inj.
  by rewrite list_ascii_of_rev, !list_ascii_of_append, !list_ascii_of_rev,
    rev_app_distr.
Qed.

Lemma string_rev_involutive (s : string) : String.rev (String.rev s) = s.
Proof.
  apply list_ascii_of_string_inj.
  by rewrite !list_ascii_of_rev, rev_involutive.
Qed.

Lemma all_space_rev (s : string) : all_space (String.rev s) = all_space s.
Proof.
  unfold all_space. rewrite list_ascii_of_rev.
  induction (list_ascii_of_string s) as [|ch l IH]; [done|].
  simpl. rewrite forallb_app, IH. simpl. by rewrite andb_true_r, andb_comm.
Qed.

Lemma lstrip_split (s : string) :
  ∃ ws, s = ws +:+ Py.lstrip s ∧ all_space ws = true
        ∧ starts_clean (Py.lstrip s) = true.
Proof.
  induction s as [|ch s (ws & Hs & Hws & Hclean)]; [by exists ""|].
  cbn [Py.lstrip]. destruct (Py.isspace ch) eqn:Hch.
  - exists (String ch ws).
    change (String ch ws +:+ Py.lstrip s) with (String ch (ws +:+ Py.lstrip s)).
    rewrite <- Hs. split_and!; [done| |done].
    unfold all_space in *. simpl. by rewrite Hch.
  - exists "". split_and!; [done|done|]. simpl. by rewrite Hch.
Qed.

Lemma rstrip_split (s : string) :
  ∃ ws, s = Py.rstrip s +:+ ws ∧ all_space ws = true
        ∧ starts_clean (String.rev (Py.rstrip s)) = true.
Proof.
  destruct (lstrip_split (String.rev s)) as (ws & Hs & Hws & Hclean).
  exists (String.rev ws). unfold Py.rstrip. split_and!.
  - by rewrite <- string_rev_append, <- Hs, string_rev_involutive.
  - by rewrite all_space_rev.
  - by rewrite string_rev_involutive.
Qed.

Lemma strip_clean (s : string) :
  starts_clean s = true → starts_clean (String.rev s) = true → Py.strip s = s.
Proof.
  intros Hstart Hend. unfold Py.strip, Py.rstrip.
  assert (Hl : ∀ t, starts_clean t = true → Py.lstrip t = t).
  { intros [|ch t]; [done|]. simpl. by intros ->%negb_true_iff. }
  by rewrite (Hl s), (Hl (String.rev s)), string_rev_involutive.
Qed.

(** X15: the URL of a repository is what [git config] printed, without
    the white space at its two ends, the line end after the URL among it:
    the output is white space, the URL, white space; the URL neither
    starts nor ends with white space; and an output that neither starts
    nor ends with white space is the URL. *)
Theorem X15_repo_url (stdout : string) :
  let url := GitAnalyzer._get_repo_url stdout in
  (∃ before after,
     stdout = before +:+ url +:+ after
     ∧ all_space before = true ∧ all_space after = true)
  ∧ starts_clean url = true
  ∧ starts_clean (String.rev url) = true
  ∧ (starts_clean stdout = true → starts_clean (String.rev stdout) = true →
     url = stdout).
Proof.
  intros url. subst url. unfold GitAnalyzer._get_repo_url, Py.strip.
  destruct (lstrip_split stdout) as (before & Hout & Hbefore & Hclean).
  destruct (rstrip_split (Py.lstrip stdout)) as (after & Hin & Hafter & Hend).
  split_and!.
  - exists before, after. by rewrite <- Hin.
  - rewrite Hin in Hclean.
    destruct (Py.rstrip (Py.lstrip stdout)) as [|ch rest]; [done|].
    exact Hclean.
  - done.
  - apply strip_clean.
Qed.

(** ** A task that raises *)

(** X16: when a task raises ([AttributeError], for a [MODIFY] without a
    path, or [RecursionError], for a tree too deep for the visitor), the
    batch it held is not written: with a flush threshold [N]
    of at least one, every file the task has written holds exactly [N]
    graphs, and the graphs built are those of the files, in order,
    followed by fewer than [N] graphs that are in no file. *)
Theorem X16_raising_task_loses_batch `{Collaborators} (N : nat) (c : commit)
    (st : state) (e : exn) :
  1 ≤ N →
  STORE_INTERVAL = Z.of_nat N →
  (GitAnalyzer._get_commit_change_graphs c st).1 = Raise e →
  let st' := (GitAnalyzer._get_commit_change_graphs c st).2 in
  let artifacts := GitAnalyzer.artifacts_since st st' in
  Forall (λ graphs, length graphs = N) artifacts
  ∧ ∃ lost, graphs_built (GitAnalyzer.calls_since st st') = concat artifacts ++ lost
            ∧ length lost < N.
Proof.
  intros HN Hinterval Hraise st'. subst st'.
  destruct (task_unfold c st) as (st0 & Hsame & _ & _ & Htask).
  rewrite Htask in Hraise |- *. clear Htask.
  pose proof (for_each_invariant (batch_inv N st)
                (λ st', ∃ cgs, batch_inv N st cgs st')
                (GitAnalyzer.process_mod c) (c_modifications c)) as Hloop.
  specialize (Hloop) with (acc := []) (st := st0).
  match type of Hloop with ?A → ?B → _ =>
    assert (HA : A); [|assert (HB : B); [|specialize (Hloop HA HB)]] end.
  - intros modif acc st1 _ Hacc.
    pose proof (process_mod_invariant (batch_inv N st) c
                  (batch_inv_frame N st) (batch_inv_pair N c st Hinterval)
                  modif acc st1 Hacc) as Hmod.
    destruct (GitAnalyzer.process_mod c modif acc st1) as [[acc'|e'] st2];
      [done | subst; by exists acc].
  - apply (batch_inv_frame N st [] st st0 Hsame).
    exists [], []. rewrite !app_nil_r. simpl. split_and!; [done|done|done|lia|done].
  - clear HA HB.
    destruct (for_each _ _ _ _) as [[[|cg cgs]|e'] st1].
    + done.
    + by destruct (_store_change_graphs_spec (cg :: cgs) st1) as [extra Heq];
        rewrite Heq in Hraise.
    + simpl. destruct Hloop as (lost & files & calls & Hfiles & Hcalls & Hfull
                                & Hlen & Hgraphs).
      unfold GitAnalyzer.artifacts_since, GitAnalyzer.calls_since.
      rewrite Hfiles, Hcalls, !drop_app_length. split.
      * by apply Forall_fmap.
      * exists lost. by rewrite Hgraphs.
Qed.

(** ** Which modifications are parsed *)

Lemma substring_all (s : string) : substring 0 (String.length s) s = s.
Proof. induction s as [|ch s IH]; [done|]. simpl. by rewrite IH. Qed.

Lemma substring_suffix (pre suffix : string) :
  substring (String.length pre) (String.length suffix) (pre +:+ suffix) = suffix.
Proof.
  induction pre as [|ch pre IH]; [apply substring_all|].
  change (String ch pre +:+ suffix) with (String ch (pre +:+ suffix)).
  simpl. exact IH.
Qed.

Lemma substring_split (n : nat) (s : string) :
  n ≤ String.length s →
  s = substring 0 n s +:+ substring n (String.length s - n) s.
Proof.
  revert s. induction n as [|n IH]; intros s Hn.
  - rewrite Nat.sub_0_r, substring_all. by destruct s.
  - destruct s as [|ch s]; simpl in Hn; [lia|].
    change (String ch s
            = String ch (substring 0 n s +:+ substring n (String.length s - n) s)).
    f_equal. apply IH. lia.
Qed.

Lemma endswith_iff (s suffix : string) :
  Py.endswith s suffix = true ↔ ∃ pre, s = pre +:+ suffix.
Proof.
  unfold Py.endswith. split.
  - intros [Hlen%Nat.leb_le Heq%String.eqb_eq]%andb_prop.
    exists (substring 0 (String.length s - String.length suffix) s).
    remember (String.length suffix) as k eqn:Hk. rewrite <- Heq.
    pose proof (substring_split (String.length s - k) s) as Hsplit.
    replace (String.length s - (String.length s - k)) with k in Hsplit by lia.
    apply Hsplit. lia.
  - intros [pre ->]. rewrite length_append. apply andb_true_intro. split.
    + apply Nat.leb_le. lia.
    + apply String.eqb_eq.
      replace (String.length pre + String.length suffix - String.length suffix)
        with (String.length pre) by lia.
      apply substring_suffix.
Qed.

(** X17: a modification is parsed exactly when its kind is [MODIFY] and
    each of its two paths is some text followed by [.py]: then its old
    side goes through [_extract_methods] and, unless the visit of the old
    side raises [RecursionError], its new side after it; a modification
    that returns has had both go through, in this order; in every other
    case the record of extractions is left as it was. *)
Theorem X17_which_modifications `{Collaborators} (c : commit)
    (modif : modification) (cgs : list ChangeGraph) (st : state) :
  (fit modif = true ↔
   m_type modif = MODIFY
   ∧ ∃ old_stem new_stem, old_path modif = Some (old_stem +:+ ".py")
                          ∧ new_path modif = Some (new_stem +:+ ".py"))
  ∧ extractions (GitAnalyzer.process_mod c modif cgs st).2
    = extractions st
      ++ (if stack_suffices (old_src modif) then sides modif
          else take 1 (sides modif))
  ∧ (∀ cgs', (GitAnalyzer.process_mod c modif cgs st).1 = Ret cgs' →
             extractions (GitAnalyzer.process_mod c modif cgs st).2
             = extractions st ++ sides modif).
Proof.
  split.
  - unfold fit, ends_py. split.
    + intros [[Hmodify%bool_decide_eq_true Hold]%andb_prop Hnew]%andb_prop.
      destruct (old_path modif) as [old_p|], (new_path modif) as [new_p|];
        try done.
      apply endswith_iff in Hold as [old_stem ->].
      apply endswith_iff in Hnew as [new_stem ->].
      split; [done|]. by exists old_stem, new_stem.
    + intros (Hmodify & old_stem & new_stem & -> & ->).
      rewrite bool_decide_eq_true_2 by done. simpl.
      apply andb_true_intro. split; apply endswith_iff; by eexists.
  - destruct (process_mod_extractions c modif cgs st)
      as (r & st' & -> & Hentered & Hreturned).
    by split.
Qed.

(* ================================================================= *)
(** * The further properties at concrete inputs *)

(** X2: two old methods called [f], one new one. *)
Lemma X2_mapping_keys_witness :
  (GitAnalyzer._get_methods_mapping Examples.namesakes [0; 1] [2]).*1
  = List.filter (has_namesake Examples.namesakes [2]) [0; 1].
Proof.
  apply (proj2 (X2_mapping_keys Examples.namesakes [0; 1] [2])).
  apply (bool_decide_unpack _). vm_compute. exact I.
Defined.

(** X4: the one task of [Examples.dirs]. *)
Lemma X4_excluded_directories_witness :
  let tasks := GitAnalyzer._extract_commits Examples.repo Examples.history in
  let task := mkCommit 1 "c0ffee" "edit f"
                [Examples.modify "def f(): return 1" "def f(): return 2"]
                Examples.repo in
  GitAnalyzer.startswith (r_name (c_repo task)) "_" = false
  ∧ ∃ d c, d ∈ Examples.dirs ∧ c ∈ GitAnalyzer.dir_history d
           ∧ c_repo task = GitAnalyzer.dir_repo d
           ∧ c_hash task = pd_hash c ∧ parents c ≠ [].
Proof.
  intros tasks task.
  apply (X4_excluded_directories Examples.dirs tasks task).
  - vm_compute. apply list_elem_of_here.
  - vm_compute. apply list_elem_of_here.
Defined.

(** X5: the message of [commit_lines] has three lines, the second of
    them empty. *)
Lemma X5_logged_commit_message_witness :
  let c := Examples.commit_lines in
  GitAnalyzer.replace_newlines (c_msg c) = "edit f; ; and nothing else"
  ∧ no_line_feed (c_msg c) = false
  ∧ ∃ later,
      logged (@GitAnalyzer._get_commit_change_graphs Examples.W2 c
                (@initial Examples.W2)).2
      = mkLog INFO ("Looking at commit #5ca1ab, msg: " +:+ GitAnalyzer.quote
                    +:+ "edit f; ; and nothing else" +:+ GitAnalyzer.quote)
        :: later.
Proof.
  intros c.
  destruct (@X5_logged_commit_message Examples.W2 c (@initial Examples.W2))
    as (Hclosed & _ & _ & Hfirst).
  split_and!; [exact Hclosed | reflexivity | exact Hfirst].
Defined.

(** X7: the identifiers of [Examples.W2] are the numbers of the calls in
    decimal, all different. *)
Lemma X7_file_names_witness :
  let st := @initial Examples.W2 in
  let st' := GitAnalyzer.worker [Examples.commit_f; Examples.commit_f] st in
  NoDup (drop (length (stored st)) (stored st')).*1.
Proof.
  intros st st'.
  apply (proj2 (proj2 (@X7_file_names Examples.W2
                         [Examples.commit_f; Examples.commit_f] st))).
  intros i j Heq. exact (pretty_nat_inj i j Heq).
Defined.


(** X11: the task on [commit_three]. *)
Lemma X11_what_is_parsed_witness :
  let st := @initial Examples.W2 in
  extractions (GitAnalyzer._get_commit_change_graphs Examples.commit_three st).2
  = extractions st ++ flat_map sides (c_modifications Examples.commit_three).
Proof.
  apply (@X11_what_is_parsed Examples.W2 Examples.commit_three
           (@initial Examples.W2)).
  vm_compute. reflexivity.
Defined.

(** X12: the old [g] of the files that start with an empty line. *)
Lemma X12_span_failure_skips_witness :
  let st := Examples.blank_extracted in
  ∃ extra,
    GitAnalyzer.process_pair Examples.commit_blank (1, 3) [] st
    = (Ret [],
       mkState (objects st) (logged st ++ extra) (extractions st)
               (builder_calls st) (stored st) (uuid_calls st))
    ∧ Forall (λ e, level e = INFO) extra.
Proof.
  apply (@X12_span_failure_skips Examples.W2 Examples.commit_blank 1 3 []
           Examples.blank_extracted).
  left. vm_compute. reflexivity.
Defined.

(** X13: a commit that adds a file. *)
Lemma X13_nothing_to_do_witness :
  let st := @initial Examples.W2 in
  GitAnalyzer._get_commit_change_graphs Examples.commit_added st
  = (Ret (),
     mkState (objects st) (logged st ++ [start_record Examples.commit_added])
             (extractions st) (builder_calls st) (stored st) (uuid_calls st)).
Proof.
  apply (@X13_nothing_to_do Examples.W2 Examples.commit_added
           (@initial Examples.W2)).
  constructor; [|constructor]. split; [reflexivity|]. discriminate.
Defined.

(** X15: an output without white space at its ends. *)
Lemma X15_repo_url_witness :
  GitAnalyzer._get_repo_url "git@host:demo.git" = "git@host:demo.git".
Proof.
  apply (proj2 (proj2 (proj2 (X15_repo_url "git@host:demo.git"))));
    reflexivity.
Defined.

(** X16: [commit_lost] with threshold 300: a graph is built for [f], then
    the record without paths raises. *)
Lemma X16_raising_task_loses_batch_witness :
  let st := @initial Examples.W300 in
  let st' := (GitAnalyzer._get_commit_change_graphs Examples.commit_lost st).2 in
  let artifacts := GitAnalyzer.artifacts_since st st' in
  Forall (λ graphs, length graphs = 300) artifacts
  ∧ ∃ lost, graphs_built (GitAnalyzer.calls_since st st') = concat artifacts ++ lost
            ∧ length lost < 300.
Proof.
  apply (@X16_raising_task_loses_batch Examples.W300 300 Examples.commit_lost
           (@initial Examples.W300) AttributeError).
  - lia.
  - reflexivity.
  - vm_compute. reflexivity.
Defined.

(** X17: [a.py] on both sides; the tree of the old side of
    [Examples.deep] is too deep for the visitor, and its new side is not
    parsed. *)
Lemma X17_which_modifications_witness :
  fit Examples.deep = true
  ∧ extractions (@GitAnalyzer.process_mod Examples.W2 Examples.commit_f
                   Examples.deep [] (@initial Examples.W2)).2
    = [("a.py", Some Examples.deep_src)].
Proof.
  destruct (@X17_which_modifications Examples.W2 Examples.commit_f
              Examples.deep [] (@initial Examples.W2))
    as (Hfit & Hentered & _).
  split.
  - apply Hfit. split; [reflexivity|]. by exists "a", "a".
  - exact Hentered.
Defined.
